(** * The registry build script, [scripts/build-registry.mts]

    A shallow embedding of the script that turns the component registry
    into the generated index modules, the per-item style documents and the
    colour and theme documents, followed by the properties its
    specification states about it.

    The script is dynamically shaped JavaScript: registry items, colour
    tables and payloads are plain objects that are spread, indexed by
    computed keys and serialised.  They are embedded as a small universe of
    JavaScript values, with the operations the script applies to them
    (property reads, template literals, [JSON.stringify], [parseInt],
    [split], the two colour regular expressions) written out.  Effects
    (the file store, the two console streams, exceptions and
    [process.exit]) are threaded through a state-and-outcome monad.

    Conventions of the embedding:
    - a string is the sequence of the bytes of its UTF-8 encoding;
    - a number is an integer (the only numbers of the tables are the
      scales of the shades);
    - an object is the list of its own enumerable properties, in the order
      of [Object.entries]; members inherited from [Object.prototype] are
      not modelled;
    - the file store is ideal: a write to any path succeeds;
    - the reads that [Promise.all] awaits settle in the order of the files
      (only the order of the lines on the error stream depends on it);
    - the modules the script imports from the repository (the registry,
      the crawler, the schemas, the colour tables) are parameters. *)

From Stdlib Require Import ZArith Ascii String List.
From stdpp Require Import base strings gmap list pretty.

Local Open Scope string_scope.

(* ====================================================================== *)
(** * Characters and strings *)
(* ====================================================================== *)

Module Str.

Definition DQ : string := String "034"%char EmptyString.
Definition LF : string := String "010"%char EmptyString.
Definition CR : string := String "013"%char EmptyString.
Definition CRLF : string := CR +:+ LF.

(** [`"${s}"`] *)
Definition quoted (s : string) : string := DQ +:+ s +:+ DQ.

Fixpoint join (sep : string) (l : list string) : string :=
  match l with
  | [] => EmptyString
  | [s] => s
  | s :: rest => s +:+ sep +:+ join sep rest
  end.

(** [s.split(sep)] for a one-character separator. *)
Fixpoint split_on (sep : ascii) (s : string) : list string :=
  match s with
  | EmptyString => [EmptyString]
  | String c r =>
      if Ascii.eqb c sep then EmptyString :: split_on sep r
      else match split_on sep r with
           | [] => [String c EmptyString]
           | h :: t => String c h :: t
           end
  end.

Fixpoint strip_prefix (p s : string) : option string :=
  match p with
  | EmptyString => Some s
  | String a p' =>
      match s with
      | EmptyString => None
      | String b s' => if Ascii.eqb a b then strip_prefix p' s' else None
      end
  end.

(** [s.startsWith(p)] *)
Definition starts_with (p s : string) : bool :=
  match strip_prefix p s with Some _ => true | None => false end.

(** The longest prefix of [s] whose characters satisfy [p], and the
    rest: what a greedy character class [[...]*] consumes. *)
Fixpoint span (p : ascii -> bool) (s : string) : string * string :=
  match s with
  | EmptyString => (EmptyString, EmptyString)
  | String c r =>
      if p c then let '(a, b) := span p r in (String c a, b)
      else (EmptyString, s)
  end.

(** [s.replace(/pat/g, rep)] for a literal, non-empty [pat] and a
    replacement without [$]: the matches are taken left to right and do
    not overlap.  [skip] counts the characters of a match still to be
    dropped. *)
Fixpoint replace_all_from (pat rep : string) (skip : nat) (s : string) : string :=
  match s with
  | EmptyString => EmptyString
  | String c r =>
      match skip with
      | S k => replace_all_from pat rep k r
      | O =>
          if starts_with pat s
          then rep +:+ replace_all_from pat rep (String.length pat - 1) r
          else String c (replace_all_from pat rep 0 r)
      end
  end.

Definition replace_all (pat rep s : string) : string :=
  replace_all_from pat rep 0 s.

Definition is_digit (c : ascii) : bool :=
  let n := nat_of_ascii c in (48 <=? n)%nat && (n <=? 57)%nat.

Definition is_digit_or_dot (c : ascii) : bool :=
  is_digit c || Ascii.eqb c "."%char.

Fixpoint all_chars (p : ascii -> bool) (s : string) : bool :=
  match s with
  | EmptyString => true
  | String c r => p c && all_chars p r
  end.

(** [s.includes(needle)] *)
Fixpoint contains (needle s : string) : bool :=
  starts_with needle s
  || match s with
     | EmptyString => false
     | String _ r => contains needle r
     end.

Definition ends_with_crlf (s : string) : Prop :=
  exists payload, s = payload +:+ CRLF.

End Str.

(* ====================================================================== *)
(** * JavaScript values *)
(* ====================================================================== *)

(** The values the script manipulates.  An object is the list of its own
    enumerable properties in [Object.entries] order.  Numbers are the
    integers (the only numbers of the tables are shade scales). *)
#[warnings="-register-all"]
Inductive value : Type :=
| VUndef
| VNull
| VBool (b : bool)
| VNum (n : Z)
| VStr (s : string)
| VArr (elems : list value)
| VObj (props : list (string * value)).

(** What the script can throw or log. *)
Inductive error : Type :=
| TypeError (msg : string)
| FsError (code path : string)
| ZodError (issues : string).

(** Outcome of a computation: a value, an exception in flight, or the
    process already terminated by [process.exit(code)]. *)
Inductive outcome (A : Type) : Type :=
| Ok (a : A)
| Throw (e : error)
| Exit (code : Z).
Arguments Ok {A} a.
Arguments Throw {A} e.
Arguments Exit {A} code.

Definition obind {A B} (m : outcome A) (k : A -> outcome B) : outcome B :=
  match m with
  | Ok a => k a
  | Throw e => Throw e
  | Exit c => Exit c
  end.

Declare Scope js_scope.
Delimit Scope js_scope with js.
Notation "'let?' x := m 'in' k" := (obind m (fun x => k))
  (at level 10, x pattern, m at level 100, k at level 200) : js_scope.
Local Open Scope js_scope.

(** [Array.prototype.map] with a callback that may throw. *)
Fixpoint omapM {A B} (f : A -> outcome B) (l : list A) : outcome (list B) :=
  match l with
  | [] => Ok []
  | a :: rest =>
      obind (f a) (fun b => obind (omapM f rest) (fun bs => Ok (b :: bs)))
  end.

Module JS.
Import Str.

Definition truthy (v : value) : bool :=
  match v with
  | VUndef | VNull => false
  | VBool b => b
  | VNum n => negb (n =? 0)%Z
  | VStr s => negb (s =? EmptyString)%string
  | VArr _ | VObj _ => true
  end.

(** [v ?? d] *)
Definition nullish_or (v d : value) : value :=
  match v with VUndef | VNull => d | _ => v end.

(** [v || d] *)
Definition or_else (v d : value) : value := if truthy v then v else d.

Fixpoint assoc (k : string) (ps : list (string * value)) : option value :=
  match ps with
  | [] => None
  | (k', v) :: rest => if (k' =? k)%string then Some v else assoc k rest
  end.

(** [o[k] = v]: an existing property keeps its place, a new one goes
    last. *)
Fixpoint assoc_set (k : string) (v : value) (ps : list (string * value))
  : list (string * value) :=
  match ps with
  | [] => [(k, v)]
  | (k', v') :: rest =>
      if (k' =? k)%string then (k, v) :: rest else (k', v') :: assoc_set k v rest
  end.

(** [v[k]] for the property names the script reads; none of them is a
    built-in member of strings, arrays, numbers or booleans, and
    inherited members of [Object.prototype] are left out. *)
Definition get (v : value) (k : string) : outcome value :=
  match v with
  | VUndef => Throw (TypeError ("Cannot read properties of undefined (reading '" +:+ k +:+ "')"))
  | VNull => Throw (TypeError ("Cannot read properties of null (reading '" +:+ k +:+ "')"))
  | VObj ps => Ok (default VUndef (assoc k ps))
  | _ => Ok VUndef
  end.

Fixpoint chars (s : string) : list value :=
  match s with
  | EmptyString => []
  | String c r => VStr (String c EmptyString) :: chars r
  end.

(** The own enumerable properties that [{ ...v }] copies. *)
Definition spread (v : value) : list (string * value) :=
  match v with
  | VObj ps => ps
  | VArr l => imap (fun i e => (pretty i, e)) l
  | VStr s => imap (fun i e => (pretty i, e)) (chars s)
  | _ => []
  end.

(** [{ ...o, k: v }], and [o[k] = v] on an object [o]. *)
Definition set (o : value) (k : string) (v : value) : value :=
  VObj (assoc_set k v (spread o)).

(** [`${v}`] *)
Fixpoint to_string (v : value) : string :=
  match v with
  | VUndef => "undefined"
  | VNull => "null"
  | VBool b => if b then "true" else "false"
  | VNum n => pretty n
  | VStr s => s
  | VArr l =>
      join ","
        (List.map (fun e => match e with
                            | VUndef | VNull => EmptyString
                            | _ => to_string e
                            end) l)
  | VObj _ => "[object Object]"
  end.

(** ** [JSON.stringify] *)

Definition hex_digit (n : nat) : ascii :=
  ascii_of_nat (if (n <? 10)%nat then 48 + n else 87 + n).

Definition json_escape_char (c : ascii) : string :=
  let n := nat_of_ascii c in
  if (n =? 8)%nat then "\b"
  else if (n =? 9)%nat then "\t"
  else if (n =? 10)%nat then "\n"
  else if (n =? 12)%nat then "\f"
  else if (n =? 13)%nat then "\r"
  else if (n =? 34)%nat then "\" +:+ DQ
  else if (n =? 92)%nat then "\\"
  else if (n <? 32)%nat
       then "\u00" +:+ String (hex_digit (n / 16)) (String (hex_digit (n mod 16)) EmptyString)
  else String c EmptyString.

Fixpoint json_escape (s : string) : string :=
  match s with
  | EmptyString => EmptyString
  | String c r => json_escape_char c +:+ json_escape r
  end.

Definition json_quote (s : string) : string := DQ +:+ json_escape s +:+ DQ.

Definition json_wrap (opn cls gap ind ind' : string) (parts : list string) : string :=
  match parts with
  | [] => opn +:+ cls
  | _ =>
      if (gap =? EmptyString)%string
      then opn +:+ join "," parts +:+ cls
      else opn +:+ LF +:+ ind' +:+ join ("," +:+ LF +:+ ind') parts +:+ LF +:+ ind +:+ cls
  end.

(** [JSON.stringify(v, null, gap)] at indentation [ind]; [None] is the
    [undefined] it returns for an [undefined] value.  In an array
    [undefined] is written [null]; in an object the property is left
    out. *)
Fixpoint stringify_at (gap ind : string) (v : value) : option string :=
  match v with
  | VUndef => None
  | VNull => Some "null"
  | VBool b => Some (if b then "true" else "false")
  | VNum n => Some (pretty n)
  | VStr s => Some (json_quote s)
  | VArr l =>
      let ind' := ind +:+ gap in
      Some (json_wrap "[" "]" gap ind ind'
              (List.map (fun e => default "null" (stringify_at gap ind' e)) l))
  | VObj ps =>
      let ind' := ind +:+ gap in
      let colon := if (gap =? EmptyString)%string then ":" else ": " in
      Some (json_wrap "{" "}" gap ind ind'
              (List.concat
                 (List.map (fun p => match stringify_at gap ind' (snd p) with
                                     | Some s => [json_quote (fst p) +:+ colon +:+ s]
                                     | None => []
                                     end) ps)))
  end.

Definition stringify (gap : string) (v : value) : value :=
  match stringify_at gap EmptyString v with
  | Some s => VStr s
  | None => VUndef
  end.

End JS.

(* ====================================================================== *)
(** * [Number.parseInt] and the colour patterns *)
(* ====================================================================== *)

Module Num.
Import Str.

Definition is_space (c : ascii) : bool :=
  let n := nat_of_ascii c in
  ((9 <=? n)%nat && (n <=? 13)%nat) || (n =? 32)%nat.

Fixpoint skip_spaces (s : string) : string :=
  match s with
  | String c r => if is_space c then skip_spaces r else s
  | EmptyString => s
  end.

Definition digit_value (radix : Z) (c : ascii) : option Z :=
  let n := Z.of_nat (nat_of_ascii c) in
  let d := if (48 <=? n)%Z && (n <=? 57)%Z then Some (n - 48)%Z
           else if (97 <=? n)%Z && (n <=? 122)%Z then Some (n - 87)%Z
           else if (65 <=? n)%Z && (n <=? 90)%Z then Some (n - 55)%Z
           else None in
  match d with
  | Some k => if (k <? radix)%Z then Some k else None
  | None => None
  end.

(** The value of the longest prefix of [s] made of digits of [radix];
    [None] when that prefix is empty. *)
Fixpoint digits (radix : Z) (acc : option Z) (s : string) : option Z :=
  match s with
  | EmptyString => acc
  | String c r =>
      match digit_value radix c with
      | Some d => digits radix (Some (radix * default 0%Z acc + d)%Z) r
      | None => acc
      end
  end.

(** [Number.parseInt(s)], [None] standing for [NaN]: leading white
    space, an optional sign, an optional [0x] prefix, then digits. *)
Definition parseInt (s : string) : option Z :=
  let s1 := skip_spaces s in
  let '(neg, s2) :=
    match s1 with
    | String "-"%char r => (true, r)
    | String "+"%char r => (false, r)
    | _ => (false, s1)
    end in
  let '(radix, s3) :=
    match s2 with
    | String "0"%char (String "x"%char r) => (16%Z, r)
    | String "0"%char (String "X"%char r) => (16%Z, r)
    | _ => (10%Z, s2)
    end in
  match digits radix None s3 with
  | Some n => Some (if neg then (- n)%Z else n)
  | None => None
  end.

End Num.

Module Pattern.
Import Str.

(** One or more characters of the class [p], then the literal [lit]. *)
Definition group_then (p : ascii -> bool) (lit : string) (s : string)
  : option (string * string) :=
  let '(g, rest) := span p s in
  match g with
  | EmptyString => None
  | _ => match strip_prefix lit rest with
         | Some rest' => Some (g, rest')
         | None => None
         end
  end.

(** The groups of [/^rgb\((\d+),(\d+),(\d+)\)$/] on [s]. *)
Definition match_rgb (s : string) : option (string * string * string) :=
  match strip_prefix "rgb(" s with
  | None => None
  | Some s1 =>
      match group_then is_digit "," s1 with
      | None => None
      | Some (g1, s2) =>
          match group_then is_digit "," s2 with
          | None => None
          | Some (g2, s3) =>
              match group_then is_digit ")" s3 with
              | Some (g3, EmptyString) => Some (g1, g2, g3)
              | _ => None
              end
          end
      end
  end.

(** The groups of [/^hsl\(([\d.]+),([\d.]+%),([\d.]+%)\)$/] on [s]: the
    second and third groups close after the percent sign. *)
Definition match_hsl (s : string) : option (string * string * string) :=
  match strip_prefix "hsl(" s with
  | None => None
  | Some s1 =>
      match group_then is_digit_or_dot "," s1 with
      | None => None
      | Some (g1, s2) =>
          match group_then is_digit_or_dot "%," s2 with
          | None => None
          | Some (g2, s3) =>
              match group_then is_digit_or_dot "%)" s3 with
              | Some (g3, EmptyString) => Some (g1, g2 +:+ "%", g3 +:+ "%")
              | _ => None
              end
          end
      end
  end.

(** [s.replace(re, "$1 $2 $3")] for an anchored pattern: the whole
    string is replaced when it matches and kept otherwise. *)
Definition replace_groups (m : string -> option (string * string * string))
  (s : string) : string :=
  match m s with
  | Some (g1, g2, g3) => g1 +:+ " " +:+ g2 +:+ " " +:+ g3
  | None => s
  end.

(** [v.replace(re, "$1 $2 $3")] on a value: only a string has the
    method. *)
Definition replace_on (what : string)
  (m : string -> option (string * string * string)) (v : value) : outcome value :=
  match v with
  | VStr s => Ok (VStr (replace_groups m s))
  | VUndef => Throw (TypeError ("Cannot read properties of undefined (reading 'replace')"))
  | VNull => Throw (TypeError ("Cannot read properties of null (reading 'replace')"))
  | _ => Throw (TypeError (what +:+ ".replace is not a function"))
  end.

Definition rgbChannel (rgb : value) : outcome value :=
  replace_on "item.rgb" match_rgb rgb.

Definition hslChannel (hsl : value) : outcome value :=
  replace_on "item.hsl" match_hsl hsl.

End Pattern.

(* ====================================================================== *)
(** * [node:path] *)
(* ====================================================================== *)

Module NodePath.
Import Str.

(** [normalizeString]: the segments of a path with [.] and empty
    segments dropped and [..] resolved against the segments kept so far
    ([acc], innermost first). *)
Fixpoint normalize_segments (allowAboveRoot : bool) (acc segs : list string)
  : list string :=
  match segs with
  | [] => rev acc
  | seg :: rest =>
      if (seg =? EmptyString)%string || (seg =? ".")%string
      then normalize_segments allowAboveRoot acc rest
      else if (seg =? "..")%string
      then match acc with
           | top :: acc' =>
               if (top =? "..")%string
               then normalize_segments allowAboveRoot
                      (if allowAboveRoot then ".." :: acc else acc) rest
               else normalize_segments allowAboveRoot acc' rest
           | [] =>
               normalize_segments allowAboveRoot
                 (if allowAboveRoot then [".."] else []) rest
           end
      else normalize_segments allowAboveRoot (seg :: acc) rest
  end.

Definition normalizeString (p : string) (allowAboveRoot : bool) : string :=
  join "/" (normalize_segments allowAboveRoot [] (split_on "/"%char p)).

Definition isAbsolute (p : string) : bool := starts_with "/" p.

Fixpoint ends_with_slash (p : string) : bool :=
  match p with
  | EmptyString => false
  | String c EmptyString => Ascii.eqb c "/"%char
  | String _ r => ends_with_slash r
  end.

Definition normalize (p : string) : string :=
  if (p =? EmptyString)%string then "."
  else
    let body := normalizeString p (negb (isAbsolute p)) in
    if (body =? EmptyString)%string
    then (if isAbsolute p then "/" else if ends_with_slash p then "./" else ".")
    else
      let body' := if ends_with_slash p then body +:+ "/" else body in
      if isAbsolute p then "/" +:+ body' else body'.

(** [path.join(...args)] *)
Definition join_paths (args : list string) : string :=
  let parts := List.filter (fun a => negb (a =? EmptyString)%string) args in
  match parts with
  | [] => "."
  | _ => normalize (join "/" parts)
  end.

(** [path.resolve(p)] in the working directory [cwd]. *)
Definition resolve (cwd p : string) : string :=
  let tail := if (p =? EmptyString)%string then EmptyString else p +:+ "/" in
  let '(full, absolute) :=
    if isAbsolute p then (tail, true)
    else if (cwd =? EmptyString)%string then (tail, false)
    else (cwd +:+ "/" +:+ tail, isAbsolute cwd) in
  let body := normalizeString full (negb absolute) in
  if absolute then "/" +:+ body
  else if (body =? EmptyString)%string then "." else body.

End NodePath.

(* ====================================================================== *)
(** * The world of a run: files, directories and the console *)
(* ====================================================================== *)

(** The file store maps a path to the text of the file there; directories
    are kept apart.  The store is ideal: a write to any path succeeds. *)
Record World : Type := mkWorld {
  files : gmap string string;
  dirs : gset string;
  stdout : list string;
  stderr : list error
}.

Definition M (A : Type) : Type := World -> outcome A * World.

Definition ret {A} (a : A) : M A := fun w => (Ok a, w).

Definition bind {A B} (m : M A) (k : A -> M B) : M B :=
  fun w =>
    match m w with
    | (Ok a, w') => k a w'
    | (Throw e, w') => (Throw e, w')
    | (Exit c, w') => (Exit c, w')
    end.

Definition lift {A} (o : outcome A) : M A := fun w => (o, w).

(** [try { body } catch (error) { handler(error) }] *)
Definition try_catch {A} (body : M A) (handler : error -> M A) : M A :=
  fun w =>
    match body w with
    | (Throw e, w') => handler e w'
    | r => r
    end.

Declare Scope m_scope.
Delimit Scope m_scope with M.
Notation "x <- m ;; k" := (bind m (fun x => k))
  (at level 100, m at next level, right associativity) : m_scope.
Notation "m ;; k" := (bind m (fun _ => k))
  (at level 100, right associativity) : m_scope.
Local Open Scope m_scope.

(** [for (const x of l) { body(x) }] *)
Fixpoint forM {A} (l : list A) (body : A -> M unit) : M unit :=
  match l with
  | [] => ret tt
  | a :: rest => body a ;; forM rest body
  end.

(** [l.map(f)] with an effectful callback, run in list order. *)
Fixpoint mapM {A B} (f : A -> M B) (l : list A) : M (list B) :=
  match l with
  | [] => ret []
  | a :: rest => b <- f a ;; bs <- mapM f rest ;; ret (b :: bs)
  end.

Module Fs.
Import Str.

(** [k] is [p] itself or lies below the directory [p]. *)
Definition is_under (p k : string) : bool :=
  (k =? p)%string || starts_with (p +:+ "/") k.

(** The proper ancestors of a path: its prefixes that end before a
    separator. *)
Fixpoint ancestors_from (seen : string) (s : string) : list string :=
  match s with
  | EmptyString => []
  | String c r =>
      (if Ascii.eqb c "/"%char && negb (seen =? EmptyString)%string
       then [seen] else [])
        ++ ancestors_from (seen +:+ String c EmptyString) r
  end.

Definition ancestors (p : string) : list string :=
  ancestors_from EmptyString p.

Definition existsSync (p : string) : M bool :=
  fun w => (Ok (bool_decide (p ∈ dirs w) || bool_decide (is_Some (files w !! p))), w).

(** [fs.mkdir(p, { recursive: true })] *)
Definition mkdir (p : string) : M unit :=
  fun w => (Ok tt, mkWorld (files w) (dirs w ∪ list_to_set (p :: ancestors p))
                           (stdout w) (stderr w)).

(** [rimraf.sync(p)] *)
Definition rimraf (p : string) : M unit :=
  fun w => (Ok tt, mkWorld (filter (fun kv => is_under p (fst kv) = false) (files w))
                           (filter (fun k => is_under p k = false) (dirs w))
                           (stdout w) (stderr w)).

(** [fs.readFile(p, "utf8")] *)
Definition readFile (p : string) : M string :=
  fun w =>
    match files w !! p with
    | Some text => (Ok text, w)
    | None => (Throw (FsError "ENOENT" p), w)
    end.

(** [fs.writeFile(p, text, "utf8")] *)
Definition writeFile (p text : string) : M unit :=
  fun w => (Ok tt, mkWorld (<[p := text]> (files w)) (dirs w) (stdout w) (stderr w)).

End Fs.

Module Console.

Definition error (e : error) : M unit :=
  fun w => (Ok tt, mkWorld (files w) (dirs w) (stdout w) (stderr w ++ [e])).

Definition log (s : string) : M unit :=
  fun w => (Ok tt, mkWorld (files w) (dirs w) (stdout w ++ [s]) (stderr w)).

End Console.

(** [process.exit(code)] *)
Definition process_exit {A} (code : Z) : M A := fun w => (Exit code, w).

(** A [safeParse] result of the schema library. *)
Inductive parsed (A : Type) : Type :=
| ParseOk (data : A)
| ParseFail (err : error).
Arguments ParseOk {A} data.
Arguments ParseFail {A} err.

(* ====================================================================== *)
(** * The script *)
(* ====================================================================== *)

Section BuildRegistry.
Import Str.

(** [process.cwd()] *)
Variable cwd : string.

(** The modules the script imports and that are taken as given: the
    static registry, the content crawler (it reads the file store and
    returns the items it found, or throws), the two schemas, and the
    colour tables. *)
Variable registry : list value.
Variable crawlContent : gmap string string -> outcome (list value).
Variable registrySchema_safeParse : list value -> parsed (list value).
(** [registryEntrySchema.omit({ category: true, subcategory: true }).safeParse] *)
Variable registryEntrySchema_omit_safeParse : value -> parsed value.
Variable colors : list (string * value).
Variable colorMapping : list (string * value).
Variable baseColors : list value.

Definition REGISTRY_PATH : string := NodePath.join_paths [cwd; "public/r"].

Definition REGISTRY_INDEX_WHITELIST : list string :=
  ["registry:ui"; "registry:block"; "registry:example"; "registry:hook"].

(** [list.includes(v)] for a list of strings. *)
Definition includes (l : list string) (v : value) : bool :=
  match v with
  | VStr s => existsb (fun x => (x =? s)%string) l
  | _ => false
  end.

(** [async function writeFile(path, payload)]: the payload goes through
    a template literal and is followed by a carriage return and a line
    feed. *)
Definition writeFile (path : string) (payload : value) : M unit :=
  Fs.writeFile path (JS.to_string payload +:+ CR +:+ LF).

(** ** Pieces shared by the two index modules *)

(** [`components/content/inspira/${typeof file === "string" ? file : file.path}`] *)
Definition resolveFile (file : value) : outcome string :=
  match file with
  | VStr s => Ok ("components/content/inspira/" +:+ s)
  | _ => let? p := JS.get file "path" in
         Ok ("components/content/inspira/" +:+ JS.to_string p)
  end.

(** The receiver of [item.files?.map(...)]: [None] when the optional
    chain stops at [undefined] or [null], the elements of an array, and
    a [TypeError] for anything else, which has no [map]. *)
Definition optional_array (fs : value) : outcome (option (list value)) :=
  match fs with
  | VUndef | VNull => Ok None
  | VArr l => Ok (Some l)
  | _ => Throw (TypeError "item.files?.map is not a function")
  end.

(** [item.type.split(":")[1]] *)
Definition type_suffix (ty : value) : outcome value :=
  match ty with
  | VStr s => Ok (match split_on ":"%char s with
                  | _ :: second :: _ => VStr second
                  | _ => VUndef
                  end)
  | VUndef => Throw (TypeError "Cannot read properties of undefined (reading 'split')")
  | VNull => Throw (TypeError "Cannot read properties of null (reading 'split')")
  | _ => Throw (TypeError "item.type.split is not a function")
  end.

(** The component path of an item whose [files] is the array [fs]:
[[
  let componentPath = `@/components/content/inspira/${type}/${item.name}`;
  if (item.files) {
    if (item.files?.length) {
      componentPath = `@/components/content/inspira/${item.files[0].path}`;
    }
  }
]] *)
Definition componentPath (item : value) (fs : list value) : outcome string :=
  let? ty := JS.get item "type" in
  let? type := type_suffix ty in
  let? name := JS.get item "name" in
  match fs with
  | first :: _ =>
      let? p := JS.get first "path" in
      Ok ("@/components/content/inspira/" +:+ JS.to_string p)
  | _ =>
      Ok ("@/components/content/inspira/" +:+ JS.to_string type +:+ "/"
            +:+ JS.to_string name)
  end.

(** [`${v ?? ""}`] *)
Definition or_empty (v : value) : string :=
  JS.to_string (JS.nullish_or v (VStr EmptyString)).

(** One element of the rendered [files] array of the index module. *)
Definition index_file (file : value) : outcome string :=
  let? filePath := resolveFile file in
  let resolvedFilePath := NodePath.resolve cwd filePath in
  match file with
  | VStr _ => Ok (quoted resolvedFilePath)
  | _ =>
      let? ty := JS.get file "type" in
      let? target := JS.get file "target" in
      Ok ("{" +:+ LF +:+
          "      path: " +:+ quoted filePath +:+ "," +:+ LF +:+
          "      type: " +:+ quoted (JS.to_string ty) +:+ "," +:+ LF +:+
          "      target: " +:+ quoted (or_empty target) +:+ LF +:+
          "    }")
  end.

(** The same for the block module, with the raw-source loader. *)
Definition block_file (file : value) : outcome string :=
  let? filePath := resolveFile file in
  let resolvedFilePath := NodePath.resolve cwd filePath in
  match file with
  | VStr _ => Ok (quoted resolvedFilePath)
  | _ =>
      let? ty := JS.get file "type" in
      let? target := JS.get file "target" in
      Ok ("{" +:+ LF +:+
          "      path: " +:+ quoted filePath +:+ "," +:+ LF +:+
          "      type: " +:+ quoted (JS.to_string ty) +:+ "," +:+ LF +:+
          "      target: " +:+ quoted (or_empty target) +:+ "," +:+ LF +:+
          "      raw: () => import(" +:+ quoted ("@/" +:+ filePath +:+ "?raw")
            +:+ ").then((m) => m.default)" +:+ LF +:+
          "    }")
  end.

(** The fields both modules start an entry with, up to [files]. *)
Definition entry_head (item : value) (rendered : list string) : outcome string :=
  let? name := JS.get item "name" in
  let? description := JS.get item "description" in
  let? ty := JS.get item "type" in
  let? deps := JS.get item "registryDependencies" in
  Ok (LF +:+
      "  " +:+ quoted (JS.to_string name) +:+ ": {" +:+ LF +:+
      "    name: " +:+ quoted (JS.to_string name) +:+ "," +:+ LF +:+
      "    description: " +:+ quoted (or_empty description) +:+ "," +:+ LF +:+
      "    type: " +:+ quoted (JS.to_string ty) +:+ "," +:+ LF +:+
      "    registryDependencies: " +:+ JS.to_string (JS.stringify EmptyString deps)
        +:+ "," +:+ LF +:+
      "    files: [" +:+ join "," rendered +:+ "]," +:+ LF).

(** The closing fields of an entry. *)
Definition entry_tail (item : value) : outcome string :=
  let? category := JS.get item "category" in
  let? subcategory := JS.get item "subcategory" in
  Ok ("    category: " +:+ quoted (or_empty category) +:+ "," +:+ LF +:+
      "    subcategory: " +:+ quoted (or_empty subcategory) +:+ LF +:+
      "  },").

(** ** [buildRegistry]: [__registry__/index.ts] and [public/r/index.json] *)

Definition INDEX_HEADER : string :=
  "// @ts-nocheck" +:+ LF +:+
  "// This file is autogenerated by scripts/build-registry.ts" +:+ LF +:+
  "// Do not edit this file directly." +:+ LF +:+
  LF +:+
  "export const Index: Record<string, any> = {".

Definition INDEX_FOOTER : string := LF +:+ "}" +:+ LF.

(** The text one pass of the first loop appends to [index]; [None] when
    the pass ends at [continue]. *)
Definition index_entry (item : value) : outcome (option string) :=
  let? fs := JS.get item "files" in
  let? arr := optional_array fs in
  match arr with
  | None => Ok None
  | Some l =>
      let? resolveFiles := omapM resolveFile l in
      let? path := componentPath item l in
      let? rendered := omapM index_file l in
      let? head := entry_head item rendered in
      let? tail := entry_tail item in
      Ok (Some (head +:+
                "    component: () => import(" +:+ quoted path
                  +:+ ").then((m) => m.default)," +:+ LF +:+
                "    source: " +:+ quoted EmptyString +:+ "," +:+ LF +:+
                tail))
  end.

(** [for (const item of registry) { ... index += entry }] *)
Fixpoint index_loop (entry : value -> outcome (option string))
  (index : string) (items : list value) : outcome string :=
  match items with
  | [] => Ok index
  | item :: rest =>
      let? e := entry item in
      index_loop entry (match e with Some text => index +:+ text | None => index end) rest
  end.

Definition index_module (data : list value) : outcome string :=
  let? index := index_loop index_entry INDEX_HEADER data in
  Ok (index +:+ INDEX_FOOTER).

(** [{ path: _file.path, type: item.type }] *)
Definition index_json_file (ty : value) (_file : value) : outcome value :=
  let? p := JS.get _file "path" in
  Ok (VObj [("path", p); ("type", ty)]).

(** [{ ...item, files: item.files?.map(...) }] *)
Definition index_json_item (item : value) : outcome value :=
  let? fs := JS.get item "files" in
  let? ty := JS.get item "type" in
  let? arr := optional_array fs in
  match arr with
  | None => Ok (JS.set item "files" VUndef)
  | Some l =>
      let? mapped := omapM (index_json_file ty) l in
      Ok (JS.set item "files" (VArr mapped))
  end.

(** [registry.filter((item) => ["registry:ui"].includes(item.type))] *)
Fixpoint filter_type (tys : list string) (items : list value) : outcome (list value) :=
  match items with
  | [] => Ok []
  | item :: rest =>
      let? ty := JS.get item "type" in
      let? kept := filter_type tys rest in
      Ok (if includes tys ty then item :: kept else kept)
  end.

Definition index_json_items (data : list value) : outcome (list value) :=
  let? kept := filter_type ["registry:ui"] data in
  omapM index_json_item kept.

Definition buildRegistry (data : list value) : M unit :=
  index <- lift (index_module data) ;;
  items <- lift (index_json_items data) ;;
  let registryJson := JS.stringify "  " (VArr items) in
  Fs.rimraf (NodePath.join_paths [REGISTRY_PATH; "index.json"]) ;;
  writeFile (NodePath.join_paths [REGISTRY_PATH; "index.json"]) registryJson ;;
  Fs.rimraf (NodePath.join_paths [cwd; "__registry__/index.ts"]) ;;
  writeFile (NodePath.join_paths [cwd; "__registry__/index.ts"]) (VStr index).

(** ** [buildBlockRegistry]: [__registry__/block.ts] *)

Definition BLOCK_HEADER : string :=
  "// @ts-nocheck" +:+ LF +:+
  "// This file is autogenerated by scripts/build-registry.ts" +:+ LF +:+
  "// Do not edit this file directly." +:+ LF +:+
  "export const Index: Record<string, any> = {".

Definition is_block (ty : value) : bool :=
  match ty with
  | VStr s => (s =? "registry:block")%string
  | _ => false
  end.

Definition block_entry (item : value) : outcome (option string) :=
  let? ty := JS.get item "type" in
  if negb (is_block ty) then Ok None
  else
    let? fs := JS.get item "files" in
    let? arr := optional_array fs in
    match arr with
    | None => Ok None
    | Some l =>
        let? resolveFiles := omapM resolveFile l in
        let? path := componentPath item l in
        let? rendered := omapM block_file l in
        let? head := entry_head item rendered in
        let? tail := entry_tail item in
        Ok (Some (head +:+
                  "    component: () => import(" +:+ quoted path
                    +:+ ").then((m) => m.default)," +:+ LF +:+
                  "    raw: () => import(" +:+ quoted (path +:+ "?raw")
                    +:+ ").then((m) => m.default)," +:+ LF +:+
                  "    source: " +:+ quoted EmptyString +:+ "," +:+ LF +:+
                  tail))
    end.

Definition block_module (data : list value) : outcome string :=
  let? index := index_loop block_entry BLOCK_HEADER data in
  Ok (index +:+ INDEX_FOOTER).

Definition buildBlockRegistry (data : list value) : M unit :=
  index <- lift (block_module data) ;;
  Fs.rimraf (NodePath.join_paths [cwd; "__registry__/block.ts"]) ;;
  writeFile (NodePath.join_paths [cwd; "__registry__/block.ts"]) (VStr index).

(** ** [buildStyles]: [public/r/styles/<name>.json] *)

(** How far the callback of [item.files.map(async (_file) => ...)] gets
    before its first [await]: it has thrown (the promise is rejected),
    it has returned already, or a read of [path] is under way. *)
Inductive started : Type :=
| Rejected (e : error)
| Settled (v : value)
| Reading (file : value) (path : string).

(** [{ path: _file.path, type: _file.type, content: "", target: _file.target ?? "" }] *)
Definition file_record (_file : value) : outcome value :=
  let? p := JS.get _file "path" in
  let? ty := JS.get _file "type" in
  let? target := JS.get _file "target" in
  Ok (VObj [("path", p); ("type", ty); ("content", VStr EmptyString);
            ("target", JS.nullish_or target (VStr EmptyString))]).

Definition is_hook (ty : value) : bool :=
  match ty with
  | VStr s => (s =? "registry:hook")%string
  | _ => false
  end.

(** The path the callback reads: hooks are resolved from the working
    directory, everything else from the content root.  [None] when
    [file.path] is not a string, on which [path.join] throws. *)
Definition read_path (file : value) : option string :=
  match JS.get file "path", JS.get file "type" with
  | Ok (VStr p), Ok ty =>
      Some (if is_hook ty then NodePath.join_paths [cwd; p]
            else NodePath.join_paths [cwd; "components"; "content"; "inspira"; p])
  | _, _ => None
  end.

(** The part of the callback that runs at once: build [file], then,
    inside the [try], join the path to read; the [TypeError] of
    [path.join] is caught and logged there. *)
Definition start_file (_file : value) : M started :=
  match file_record _file with
  | Throw e => ret (Rejected e)
  | Exit c => process_exit c
  | Ok file =>
      match read_path file with
      | Some path => ret (Reading file path)
      | None =>
          Console.error (TypeError "The 'path' argument must be of type string") ;;
          ret (Settled VUndef)
      end
  end.

(** [{ path: file.path, type: file.type, content, target: file.target || "" }] *)
Definition file_entry (file : value) (content : string) : outcome value :=
  let? p := JS.get file "path" in
  let? ty := JS.get file "type" in
  let? target := JS.get file "target" in
  Ok (VObj [("path", p); ("type", ty); ("content", VStr content);
            ("target", JS.or_else target (VStr EmptyString))]).

(** The rest of the callback: the read, and the entry it returns; a
    failed read is logged and the callback returns [undefined]. *)
Definition finish_file (s : started) : M value :=
  match s with
  | Reading file path =>
      read <- try_catch (content <- Fs.readFile path ;; ret (Some content))
                        (fun e => Console.error e ;; ret None) ;;
      match read with
      | Some content => lift (file_entry file content)
      | None => ret VUndef
      end
  | Settled v => ret v
  | Rejected _ => ret VUndef
  end.

Fixpoint first_rejection (l : list started) : option error :=
  match l with
  | [] => None
  | Rejected e :: _ => Some e
  | _ :: rest => first_rejection rest
  end.

(** [await Promise.all(item.files.map(async (_file) => ...))]: every
    callback runs up to its first [await], in order; a rejected promise
    makes the [await] throw; otherwise the reads settle, here in the
    order of the files. *)
Definition read_files (l : list value) : M (list value) :=
  ss <- mapM start_file l ;;
  match first_rejection ss with
  | Some e => lift (Throw e)
  | None => mapM finish_file ss
  end.

(** [let files; if (item.files) { files = await Promise.all(item.files.map(...)) }] *)
Definition style_files (fs : value) : M value :=
  if JS.truthy fs then
    match fs with
    | VArr l => contents <- read_files l ;; ret (VArr contents)
    | _ => lift (Throw (TypeError "item.files.map is not a function"))
    end
  else ret VUndef.

Definition styles_path : string := NodePath.join_paths [REGISTRY_PATH; "styles"].

(** One pass of the loop of [buildStyles]. *)
Definition style_item (item : value) : M unit :=
  ty <- lift (JS.get item "type") ;;
  if negb (includes REGISTRY_INDEX_WHITELIST ty) then ret tt
  else
    fs <- lift (JS.get item "files") ;;
    contents <- style_files fs ;;
    match registryEntrySchema_omit_safeParse (JS.set item "files" contents) with
    | ParseOk data =>
        name <- lift (JS.get item "name") ;;
        writeFile (NodePath.join_paths [styles_path; JS.to_string name +:+ ".json"])
                  (JS.stringify "  " data)
    | ParseFail _ => ret tt
    end.

Definition ensure_dir (p : string) : M unit :=
  there <- Fs.existsSync p ;;
  if there then ret tt else Fs.mkdir p.

Definition buildStyles (data : list value) : M unit :=
  ensure_dir styles_path ;;
  forM data style_item.

(** ** [buildThemes]: the colour index, the base colours and the themes *)

(** [{ ...item, rgbChannel: item.rgb.replace(...), hslChannel: item.hsl.replace(...) }] *)
Definition with_channels (item : value) : outcome value :=
  let? rgb := JS.get item "rgb" in
  let? rgbC := Pattern.rgbChannel rgb in
  let? hsl := JS.get item "hsl" in
  let? hslC := Pattern.hslChannel hsl in
  Ok (JS.set (JS.set item "rgbChannel" rgbC) "hslChannel" hslC).

(** One pass of the loop over [Object.entries(colors)]. *)
Definition colorsData_step (colorsData : list (string * value))
  (entry : string * value) : outcome (list (string * value)) :=
  let '(color, v) := entry in
  match v with
  | VStr _ => Ok (JS.assoc_set color v colorsData)
  | VArr l =>
      let? shades := omapM with_channels l in
      Ok (JS.assoc_set color (VArr shades) colorsData)
  | VObj _ | VNull =>
      let? augmented := with_channels v in
      Ok (JS.assoc_set color augmented colorsData)
  | _ => Ok colorsData
  end.

Fixpoint colorsData_loop (colorsData : list (string * value))
  (entries : list (string * value)) : outcome (list (string * value)) :=
  match entries with
  | [] => Ok colorsData
  | e :: rest =>
      let? next := colorsData_step colorsData e in
      colorsData_loop next rest
  end.

Definition build_colorsData : outcome (list (string * value)) :=
  colorsData_loop [] colors.

(** [shades.find((item) => item.scale === n)], [n] being the result of
    [Number.parseInt]. *)
Fixpoint find_scale (n : option Z) (shades : list value) : outcome value :=
  match shades with
  | [] => Ok VUndef
  | item :: rest =>
      let? sc := JS.get item "scale" in
      match sc, n with
      | VNum a, Some b => if (a =? b)%Z then Ok item else find_scale n rest
      | _, _ => find_scale n rest
      end
  end.

(** The colour a resolved token names:
[[
  const [resolvedBase, scale] = resolvedColor.split("-");
  const color = scale
    ? colorsData[resolvedBase].find((item) => item.scale === Number.parseInt(scale))
    : colorsData[resolvedBase];
]] *)
Definition lookup_color (colorsData : list (string * value)) (resolvedColor : string)
  : outcome value :=
  let parts := split_on "-"%char resolvedColor in
  let resolvedBase := List.hd EmptyString parts in
  let entry := default VUndef (JS.assoc resolvedBase colorsData) in
  match parts with
  | _ :: String c scale :: _ =>
      match entry with
      | VArr shades => find_scale (Num.parseInt (String c scale)) shades
      | VUndef => Throw (TypeError "Cannot read properties of undefined (reading 'find')")
      | _ => Throw (TypeError "colorsData[resolvedBase].find is not a function")
      end
  | _ => Ok entry
  end.

(** [value.replace(/\{\{base\}\}-/g, `${baseColor}-`)] *)
Definition resolve_token (baseColor token : string) : string :=
  replace_all "{{base}}-" (baseColor +:+ "-") token.

(** [Object.entries(v)] *)
Definition entries (v : value) : outcome (list (string * value)) :=
  match v with
  | VUndef | VNull => Throw (TypeError "Cannot convert undefined or null to object")
  | _ => Ok (JS.spread v)
  end.

(** *** The base-stylesheet pass *)

(** One pass over a [key, value] of a mode, on the mode's
    [inlineColors] and [cssVars]. *)
Definition base_step (colorsData : list (string * value)) (baseColor : string)
  (acc : list (string * value) * list (string * value)) (kv : string * value)
  : outcome (list (string * value) * list (string * value)) :=
  let '(inline, css) := acc in
  let '(key, v) := kv in
  match v with
  | VStr token =>
      if starts_with "chart-" key then Ok (inline, JS.assoc_set key v css)
      else
        let resolvedColor := resolve_token baseColor token in
        let inline' := JS.assoc_set key (VStr resolvedColor) inline in
        let? color := lookup_color colorsData resolvedColor in
        if JS.truthy color then
          let? channel := JS.get color "hslChannel" in
          Ok (inline', JS.assoc_set key channel css)
        else Ok (inline', css)
  | _ => Ok acc
  end.

Fixpoint base_mode (colorsData : list (string * value)) (baseColor : string)
  (acc : list (string * value) * list (string * value))
  (kvs : list (string * value))
  : outcome (list (string * value) * list (string * value)) :=
  match kvs with
  | [] => Ok acc
  | kv :: rest =>
      let? next := base_step colorsData baseColor acc kv in
      base_mode colorsData baseColor next rest
  end.

(** The loop over the modes of [colorMapping], on [base.inlineColors]
    and [base.cssVars]. *)
Fixpoint base_modes (colorsData : list (string * value)) (baseColor : string)
  (acc : list (string * value) * list (string * value))
  (modes : list (string * value))
  : outcome (list (string * value) * list (string * value)) :=
  match modes with
  | [] => Ok acc
  | (mode, values) :: rest =>
      let? kvs := entries values in
      let? filled := base_mode colorsData baseColor ([], []) kvs in
      base_modes colorsData baseColor
        (JS.assoc_set mode (VObj (fst filled)) (fst acc),
         JS.assoc_set mode (VObj (snd filled)) (snd acc)) rest
  end.

(** *** Templates *)

(** A compiled [lodash] template: literal text, escaped interpolations
    [<%- colors.mode["key"] %>] and [<%- theme %>]. *)
Inductive piece : Type :=
| Lit (text : string)
| Color (mode key : string)
| Theme.

Definition html_escape_char (c : ascii) : string :=
  let n := nat_of_ascii c in
  if (n =? 38)%nat then "&amp;"
  else if (n =? 60)%nat then "&lt;"
  else if (n =? 62)%nat then "&gt;"
  else if (n =? 34)%nat then "&quot;"
  else if (n =? 39)%nat then "&#39;"
  else String c EmptyString.

Fixpoint html_escape (s : string) : string :=
  match s with
  | EmptyString => EmptyString
  | String c r => html_escape_char c +:+ html_escape r
  end.

(** [_.escape(v)]: nothing for [undefined] and [null]. *)
Definition escape (v : value) : string :=
  match v with
  | VUndef | VNull => EmptyString
  | _ => html_escape (JS.to_string v)
  end.

(** [template(text)({ colors, theme })] *)
Fixpoint render (colors theme : value) (t : list piece) : outcome string :=
  match t with
  | [] => Ok EmptyString
  | Lit text :: rest =>
      let? tail := render colors theme rest in Ok (text +:+ tail)
  | Color mode key :: rest =>
      let? m := JS.get colors mode in
      let? v := JS.get m key in
      let? tail := render colors theme rest in
      Ok (escape v +:+ tail)
  | Theme :: rest =>
      let? tail := render colors theme rest in Ok (escape theme +:+ tail)
  end.

(** [indent --name: <%- colors.mode["name"] %>;] and a line feed. *)
Definition var_line (indent mode name : string) : list piece :=
  [Lit (indent +:+ "--" +:+ name +:+ ": "); Color mode name; Lit (";" +:+ LF)].

Definition BASE_STYLES : string :=
  "@tailwind base;" +:+ LF +:+
  "@tailwind components;" +:+ LF +:+
  "@tailwind utilities;" +:+ LF +:+
  "  ".

Definition BASE_VARIABLES : list string :=
  ["background"; "foreground"; "card"; "card-foreground"; "popover";
   "popover-foreground"; "primary"; "primary-foreground"; "secondary";
   "secondary-foreground"; "muted"; "muted-foreground"; "accent";
   "accent-foreground"; "destructive"; "destructive-foreground"; "border";
   "input"; "ring"].

Definition CHART_VARIABLES : list string :=
  ["chart-1"; "chart-2"; "chart-3"; "chart-4"; "chart-5"].

Definition BASE_STYLES_WITH_VARIABLES : list piece :=
  [Lit ("@tailwind base;" +:+ LF +:+
        "@tailwind components;" +:+ LF +:+
        "@tailwind utilities;" +:+ LF +:+
        LF +:+
        "@layer base {" +:+ LF +:+
        "  :root {" +:+ LF)]
    ++ flat_map (var_line "    " "light") BASE_VARIABLES
    ++ [Lit ("    --radius: 0.5rem;" +:+ LF)]
    ++ flat_map (var_line "    " "light") CHART_VARIABLES
    ++ [Lit ("  }" +:+ LF +:+
             LF +:+
             "  .dark {" +:+ LF)]
    ++ flat_map (var_line "    " "dark") BASE_VARIABLES
    ++ flat_map (var_line "    " "dark") CHART_VARIABLES
    ++ [Lit ("  }" +:+ LF +:+
             "}" +:+ LF +:+
             LF +:+
             "@layer base {" +:+ LF +:+
             "  * {" +:+ LF +:+
             "    @apply border-border;" +:+ LF +:+
             "  }" +:+ LF +:+
             "  body {" +:+ LF +:+
             "    @apply bg-background text-foreground;" +:+ LF +:+
             "  }" +:+ LF +:+
             "}")].

(** The variables of a theme rule, in groups that a blank line
    separates. *)
Definition THEME_GROUPS : list (list string) :=
  [["background"; "foreground"];
   ["muted"; "muted-foreground"];
   ["popover"; "popover-foreground"];
   ["card"; "card-foreground"];
   ["border"; "input"];
   ["primary"; "primary-foreground"];
   ["secondary"; "secondary-foreground"];
   ["accent"; "accent-foreground"];
   ["destructive"; "destructive-foreground"];
   ["ring"]].

Fixpoint theme_groups (mode : string) (groups : list (list string)) : list piece :=
  match groups with
  | [] => []
  | [g] => flat_map (var_line "  " mode) g
  | g :: rest => flat_map (var_line "  " mode) g ++ [Lit LF] ++ theme_groups mode rest
  end.

Definition THEME_STYLES_WITH_VARIABLES : list piece :=
  [Lit (LF +:+ ".theme-"); Theme; Lit (" {" +:+ LF)]
    ++ theme_groups "light" (THEME_GROUPS ++ [["radius"]])
    ++ [Lit ("}" +:+ LF +:+ LF +:+ ".dark .theme-"); Theme; Lit (" {" +:+ LF)]
    ++ theme_groups "dark" THEME_GROUPS
    ++ [Lit "}"].

(** *** The per-theme pass *)

Definition theme_step (colorsData : list (string * value)) (baseColor : string)
  (css : list (string * value)) (kv : string * value)
  : outcome (list (string * value)) :=
  let '(key, v) := kv in
  match v with
  | VStr token =>
      let resolvedColor := resolve_token baseColor token in
      let css' := JS.assoc_set key (VStr resolvedColor) css in
      let? color := lookup_color colorsData resolvedColor in
      if JS.truthy color then
        let? channel := JS.get color "hslChannel" in
        Ok (JS.assoc_set key channel css')
      else Ok css'
  | _ => Ok css
  end.

Fixpoint theme_mode (colorsData : list (string * value)) (baseColor : string)
  (css : list (string * value)) (kvs : list (string * value))
  : outcome (list (string * value)) :=
  match kvs with
  | [] => Ok css
  | kv :: rest =>
      let? next := theme_step colorsData baseColor css kv in
      theme_mode colorsData baseColor next rest
  end.

Fixpoint theme_modes (colorsData : list (string * value)) (baseColor : string)
  (cssVars : list (string * value)) (modes : list (string * value))
  : outcome (list (string * value)) :=
  match modes with
  | [] => Ok cssVars
  | (mode, values) :: rest =>
      let? kvs := entries values in
      let? filled := theme_mode colorsData baseColor [] kvs in
      theme_modes colorsData baseColor (JS.assoc_set mode (VObj filled) cssVars) rest
  end.

(** [s.charAt(0).toUpperCase() + s.slice(1)] for an ASCII name. *)
Definition capitalize (s : string) : string :=
  match s with
  | EmptyString => EmptyString
  | String c r =>
      let n := nat_of_ascii c in
      String (if (97 <=? n)%nat && (n <=? 122)%nat then ascii_of_nat (n - 32) else c) r
  end.

Definition BASE_COLORS : list string := ["slate"; "gray"; "zinc"; "neutral"; "stone"].


(** The [cssVars] the per-theme pass resolves for a family. *)
Definition theme_cssVars (colorsData : list (string * value)) (baseColor : string)
  : outcome (list (string * value)) :=
  theme_modes colorsData baseColor [] colorMapping.

(** The document of [colors/<baseColor>.json]. *)
Definition base_document (colorsData : list (string * value)) (baseColor : string)
  : outcome value :=
  let? r := base_modes colorsData baseColor ([], []) colorMapping in
  let? inlineColorsTemplate := render VUndef VUndef [Lit BASE_STYLES] in
  let? cssVarsTemplate := render (VObj (snd r)) VUndef BASE_STYLES_WITH_VARIABLES in
  Ok (VObj [("inlineColors", VObj (fst r));
            ("cssVars", VObj (snd r));
            ("inlineColorsTemplate", VStr inlineColorsTemplate);
            ("cssVarsTemplate", VStr cssVarsTemplate)]).

(** The document of [themes/<baseColor>.json]. *)
Definition theme_document (colorsData : list (string * value)) (baseColor : string)
  : outcome value :=
  let? cssVars := theme_cssVars colorsData baseColor in
  Ok (VObj [("name", VStr baseColor);
            ("label", VStr (capitalize baseColor));
            ("cssVars", VObj cssVars)]).

(** [template(THEME_STYLES_WITH_VARIABLES)({ colors: theme.cssVars, theme: theme.name })] *)
Definition theme_css (theme : value) : outcome string :=
  let? cssVars := JS.get theme "cssVars" in
  let? name := JS.get theme "name" in
  render cssVars name THEME_STYLES_WITH_VARIABLES.

Definition themes_path : string := NodePath.join_paths [REGISTRY_PATH; "themes"].

(** The body of the inner loop over the families. *)
Definition write_theme (colorsData : list (string * value)) (baseColor : string)
  : M unit :=
  payload <- lift (theme_document colorsData baseColor) ;;
  ensure_dir themes_path ;;
  writeFile (NodePath.join_paths [themes_path; baseColor +:+ ".json"])
            (JS.stringify "  " payload).

(** The body of the outer loop over the families: the base document,
    then the theme stylesheet, then every theme document again. *)
Definition write_base (colorsData : list (string * value)) (baseColor : string)
  : M unit :=
  base <- lift (base_document colorsData baseColor) ;;
  writeFile (NodePath.join_paths [REGISTRY_PATH; "colors/" +:+ baseColor +:+ ".json"])
            (JS.stringify "  " base) ;;
  themeCSS <- lift (omapM theme_css baseColors) ;;
  writeFile (NodePath.join_paths [REGISTRY_PATH; "themes.css"])
            (VStr (join LF themeCSS)) ;;
  Fs.rimraf themes_path ;;
  forM BASE_COLORS (write_theme colorsData).

Definition colors_path : string := NodePath.join_paths [REGISTRY_PATH; "colors"].

Definition buildThemes : M unit :=
  Fs.rimraf colors_path ;;
  ensure_dir colors_path ;;
  colorsData <- lift build_colorsData ;;
  writeFile (NodePath.join_paths [colors_path; "index.json"])
            (JS.stringify "  " (VObj colorsData)) ;;
  forM BASE_COLORS (write_base colorsData).

(** ** The top level *)

(** [await crawlContent()] *)
Definition crawl : M (list value) := fun w => (crawlContent (files w), w).

Definition pipeline : M unit :=
  ensure_dir (NodePath.join_paths [cwd; "__registry__"]) ;;
  ensure_dir REGISTRY_PATH ;;
  content <- crawl ;;
  match registrySchema_safeParse (registry ++ content) with
  | ParseFail err => Console.error err ;; process_exit 1
  | ParseOk data =>
      buildRegistry data ;;
      buildBlockRegistry data ;;
      buildStyles data ;;
      buildThemes ;;
      Console.log "✅ Done!"
  end.

(** [try { ... } catch (error) { console.error(error); process.exit(1); }] *)
Definition main : M unit :=
  try_catch pipeline (fun e => Console.error e ;; process_exit 1).

(** The exit code of the process and the world it leaves: [0] when the
    module body runs to its end. *)
Definition run (w : World) : Z * World :=
  match main w with
  | (Exit code, w') => (code, w')
  | (_, w') => (0%Z, w')
  end.

End BuildRegistry.

(* ====================================================================== *)
(** * Sample registries, schemas and colour tables *)
(* ====================================================================== *)

(** Concrete inputs on which the statements below are exercised. *)
Module Sample.

Definition cwd : string := "/app".

Definition file (path ty : string) : value :=
  VObj [("path", VStr path); ("type", VStr ty)].

Definition item (name ty : string) (fs : list value) : value :=
  VObj [("name", VStr name); ("type", VStr ty); ("files", VArr fs)].

(** A component with one file given as a record. *)
Definition button : value :=
  item "button" "registry:ui" [file "ui/button.vue" "registry:ui"].

(** A component whose file is given as a bare relative path. *)
Definition bare : value :=
  item "bare" "registry:ui" [VStr "ui/bare.vue"].

(** A block with an empty list of files. *)
Definition hero : value := item "hero" "registry:block" [].

(** An item without a [files] property. *)
Definition plain : value :=
  VObj [("name", VStr "plain"); ("type", VStr "registry:block")].

(** An item that lacks the required [name]. *)
Definition nameless : value :=
  VObj [("type", VStr "registry:ui"); ("files", VArr [])].

(** A component with a file that is on disk and one that is not. *)
Definition card : value :=
  item "card" "registry:ui"
    [file "ui/card.vue" "registry:ui"; file "ui/missing.vue" "registry:ui"].

Definition has_string (k : string) (v : value) : bool :=
  match JS.get v k with
  | Ok (VStr _) => true
  | _ => false
  end.

(** Modelled from the spec: the registry schema of [registry/schema], as
    far as the fatal scenario of the specification needs it: every item
    has a name. *)
Definition named_registry (items : list value) : parsed (list value) :=
  if forallb (has_string "name") items then ParseOk items
  else ParseFail (ZodError "name: Required").

(** A file reference of the data model: a bare relative path, or a
    record with a path. *)
Definition is_file_reference (v : value) : bool :=
  match v with
  | VStr _ => true
  | _ => has_string "path" v
  end.

(** Modelled from the spec: the entry schema of [registry/schema], as far
    as the data model of the specification describes an item: a name,
    and for [files], when present, a list of file references.  It
    validates and returns the payload as it is. *)
Definition strict_entry (payload : value) : parsed value :=
  match JS.get payload "files" with
  | Ok (VArr l) =>
      if has_string "name" payload && forallb is_file_reference l
      then ParseOk payload else ParseFail (ZodError "files: Required")
  | Ok VUndef =>
      if has_string "name" payload then ParseOk payload
      else ParseFail (ZodError "name: Required")
  | _ => ParseFail (ZodError "files: Expected array")
  end.


(** A registry schema that accepts every list as it is. *)
Definition any_registry (items : list value) : parsed (list value) := ParseOk items.


Definition card_entry : value :=
  VObj [("path", VStr "ui/card.vue"); ("type", VStr "registry:ui");
        ("content", VStr "<template>card</template>");
        ("target", VStr EmptyString)].

Definition no_content (_ : gmap string string) : outcome (list value) := Ok [].

Definition shade (scale : Z) (rgb hsl : string) : value :=
  VObj [("scale", VNum scale); ("rgb", VStr rgb); ("hsl", VStr hsl)].

Definition family (name : string) : string * value :=
  (name, VArr [shade 50 "rgb(248,250,252)" "hsl(210,40%,98%)";
               shade 950 "rgb(2,6,23)" "hsl(229,84%,5%)"]).

Definition colors : list (string * value) :=
  [("transparent", VStr "transparent");
   ("white", VObj [("rgb", VStr "rgb(255,255,255)"); ("hsl", VStr "hsl(0,0%,100%)")]);
   family "slate"; family "gray"; family "zinc"; family "neutral"; family "stone"].

Definition colorMapping : list (string * value) :=
  [("light", VObj [("background", VStr "white");
                   ("foreground", VStr "{{base}}-950");
                   ("chart-1", VStr "12 76% 61%")]);
   ("dark", VObj [("background", VStr "{{base}}-950");
                  ("foreground", VStr "{{base}}-50");
                  ("chart-1", VStr "220 70% 50%")])].


Definition baseColors : list value :=
  [VObj [("name", VStr "zinc");
         ("cssVars", VObj [("light", VObj [("background", VStr "0 0% 100%")]);
                           ("dark", VObj [("background", VStr "240 10% 3.9%")])])]].

Definition disk : World :=
  mkWorld {[ "/app/components/content/inspira/ui/button.vue" := "<template>button</template>";
             "/app/components/content/inspira/ui/card.vue" := "<template>card</template>" ]}
          ∅ [] [].

(** A full run over [button] and [card] with the strict entry schema. *)
Definition after_run : Z * World :=
  run cwd [button; card] no_content any_registry strict_entry
      colors colorMapping baseColors disk.

(** The flat colour index of [colors], and the two documents of the
    slate family under [colorMapping]. *)
Definition colorsData : list (string * value) :=
  Eval vm_compute in
    match build_colorsData colors with Ok cd => cd | _ => [] end.




End Sample.

(* ====================================================================== *)
(** * The vocabulary of the specification *)
(* ====================================================================== *)

(** An item references no file: it has no [files], or an empty list. *)
Definition zero_file_references (item : value) : Prop :=
  JS.get item "files" = Ok VUndef \/ JS.get item "files" = Ok VNull
  \/ JS.get item "files" = Ok (VArr []).

(** An item has no [files] property at all. *)
Definition files_absent (item : value) : Prop :=
  JS.get item "files" = Ok VUndef \/ JS.get item "files" = Ok VNull.

(** No entry for [item] appears in either generated module: wherever the
    item stands in the registry, both modules are the ones generated
    without it. *)
Definition no_entry_for (cwd : string) (item : value) : Prop :=
  forall before after : list value,
    index_module cwd (before ++ item :: after)%list = index_module cwd (before ++ after)%list
    /\ block_module cwd (before ++ item :: after)%list = block_module cwd (before ++ after)%list.

(** The path of a file reference: the reference itself when it is a bare
    path, its [path] otherwise. *)
Definition file_path (file : value) : outcome value :=
  match file with
  | VStr s => Ok (VStr s)
  | _ => JS.get file "path"
  end.

(** A run of one or more decimal digits, and of digits and dots: what the
    groups [(\d+)] and [([\d.]+)] match. *)
Definition digits (s : string) : Prop :=
  s <> EmptyString /\ Str.all_chars Str.is_digit s = true.

Definition digits_or_dots (s : string) : Prop :=
  s <> EmptyString /\ Str.all_chars Str.is_digit_or_dot s = true.

(** [item'] is [item] with the two channel strings computed from its
    [rgb] and [hsl] strings, every other property being kept. *)
Definition augmented (item item' : value) : Prop :=
  exists rgb hsl : string,
    JS.get item "rgb" = Ok (VStr rgb) /\ JS.get item "hsl" = Ok (VStr hsl)
    /\ JS.get item' "rgbChannel"
       = Ok (VStr (Pattern.replace_groups Pattern.match_rgb rgb))
    /\ JS.get item' "hslChannel"
       = Ok (VStr (Pattern.replace_groups Pattern.match_hsl hsl))
    /\ forall k, k <> "rgbChannel" -> k <> "hslChannel" ->
                 JS.assoc k (JS.spread item') = JS.assoc k (JS.spread item).

(** An entry of the colour table is stored augmented: a family has its
    shades augmented, and anything else is augmented itself. *)
Definition entry_augmented (v stored : value) : Prop :=
  match v with
  | VArr shades => exists shades', stored = VArr shades' /\ Forall2 augmented shades shades'
  | _ => augmented v stored
  end.






(** Every file of [w] either is as it was in [w0] or ends with a carriage
    return and a line feed. *)
Definition kept_or_crlf (w0 w : World) : Prop :=
  forall p text, files w !! p = Some text ->
    files w0 !! p = Some text \/ Str.ends_with_crlf text.

(** [m] only removes files and writes files that end with the pair. *)
Definition writes_crlf {A} (m : M A) : Prop :=
  forall w0 w, kept_or_crlf w0 w -> kept_or_crlf w0 (snd (m w)).

(** [m] changes nothing but the error stream. *)
Definition reads_only {A} (m : M A) : Prop :=
  forall w, files (snd (m w)) = files w /\ dirs (snd (m w)) = dirs w
            /\ stdout (snd (m w)) = stdout w.

(** What one pass stores under its own key. *)
Definition stored_as (v : value) (found : option value) : Prop :=
  match v with
  | VStr _ => found = Some v
  | VArr shades =>
      exists shades', found = Some (VArr shades') /\ Forall2 augmented shades shades'
  | VObj _ => exists v', found = Some v' /\ augmented v v'
  | VNull => False
  | _ => True
  end.

(** The path of the style document of an item named [name]. *)
Definition style_document (cwd : string) (name : value) : string :=
  NodePath.join_paths [styles_path cwd; JS.to_string name +:+ ".json"].

(** The record and the path to read of a file reference, when it has
    them. *)
Definition source (cwd : string) (_file : value) : option (value * string) :=
  match file_record _file with
  | Ok file => match read_path cwd file with
               | Some path => Some (file, path)
               | None => None
               end
  | _ => None
  end.

(** The two files [buildRegistry] writes. *)
Definition index_json_path (cwd : string) : string :=
  NodePath.join_paths [REGISTRY_PATH cwd; "index.json"].

Definition index_ts_path (cwd : string) : string :=
  NodePath.join_paths [cwd; "__registry__/index.ts"].

(** The texts of the entries that were rendered, one after the other. *)
Fixpoint texts (entries : list (option string)) : string :=
  match entries with
  | [] => EmptyString
  | Some text :: rest => text +:+ texts rest
  | None :: rest => texts rest
  end.

(** The character [c] does not occur in [s]. *)
Definition without_char (c : ascii) (s : string) : Prop :=
  Str.all_chars (fun x => negb (Ascii.eqb x c)) s = true.

(** [m] prints nothing on the output stream. *)
Definition silent {A} (m : M A) : Prop :=
  forall w, stdout (snd (m w)) = stdout w.

(** [existsSync(p)] holds in [w]. *)
Definition exists_in (w : World) (p : string) : Prop :=
  p ∈ dirs w \/ is_Some (files w !! p).

(** What the body of the [try] leaves on the output stream: the marker
    when it runs to its end, and nothing otherwise. *)
Definition marked {A} (w : World) (r : outcome A * World) : Prop :=
  match r with
  | (Ok _, w') => stdout w' = (stdout w ++ ["✅ Done!"])%list
  | (_, w') => stdout w' = stdout w
  end.

(** [p] is the style document of an item of [data] of a whitelisted
    type. *)
Definition style_document_of (cwd : string) (data : list value) (p : string) : Prop :=
  exists item name ty,
    In item data /\ JS.get item "name" = Ok name /\ JS.get item "type" = Ok ty
    /\ includes REGISTRY_INDEX_WHITELIST ty = true /\ p = style_document cwd name.

(** Every file of [w] either is as it was in [w0] or is the style
    document of an item of [data]. *)
Definition kept_or_styled (cwd : string) (data : list value) (w0 w : World) : Prop :=
  forall p text, files w !! p = Some text ->
    files w0 !! p = Some text \/ style_document_of cwd data p.


(** Further sample inputs. *)
Module Fixture.

(** The colour index and the style document of [Sample.button] that a
    run over the sample inputs leaves. *)
Definition colors_index : string :=
  Eval vm_compute in
    default EmptyString
      (files (snd Sample.after_run) !! "/app/public/r/colors/index.json").

Definition button_document : string :=
  Eval vm_compute in
    default EmptyString
      (files (snd Sample.after_run) !! "/app/public/r/styles/button.json").

(** An item without a type. *)
Definition untyped : value :=
  VObj [("name", VStr "untyped"); ("files", VArr [])].

(** The entry of [Sample.hero] in the index module. *)
Definition hero_entry : string :=
  Eval vm_compute in
    match index_entry Sample.cwd Sample.hero with
    | Ok (Some text) => text
    | _ => EmptyString
    end.

(** The variables of the light mode of [Sample.colorMapping]. *)
Definition light : list (string * value) :=
  [("background", VStr "white");
   ("foreground", VStr "{{base}}-950");
   ("chart-1", VStr "12 76% 61%")].

(** What the two passes make of [light] for the slate family. *)
Definition light_base : list (string * value) * list (string * value) :=
  Eval vm_compute in
    match base_mode Sample.colorsData "slate" ([], []) light with
    | Ok r => r
    | _ => ([], [])
    end.


(** The darkest shade of the sample families. *)
Definition darkest : value := Sample.shade 950 "rgb(2,6,23)" "hsl(229,84%,5%)".

(** A colour set with two empty modes, and one without a light mode. *)
Definition empty_modes : value := VObj [("light", VObj []); ("dark", VObj [])].

Definition dark_only : value := VObj [("dark", VObj [])].

End Fixture.

(** A colour or a shade has its [rgb] and [hsl] strings. *)
Definition has_colour_strings (v : value) : Prop :=
  exists rgb hsl, JS.get v "rgb" = Ok (VStr rgb) /\ JS.get v "hsl" = Ok (VStr hsl).

(** What the flat colour index asks of an entry of the colour table. *)
Definition well_formed_colour (v : value) : Prop :=
  match v with
  | VObj _ => has_colour_strings v
  | VArr shades => Forall has_colour_strings shades
  | VNull => False
  | _ => True
  end.

(** The modes a template reads. *)
Fixpoint template_modes (t : list piece) : list string :=
  match t with
  | [] => []
  | Color mode _ :: rest => mode :: template_modes rest
  | _ :: rest => template_modes rest
  end.

(** A value whose properties can be read. *)
Definition readable (v : value) : Prop := v <> VUndef /\ v <> VNull.

(* ====================================================================== *)
(** * Properties *)
(* ====================================================================== *)

(** ** Strings *)

Section Strings.
Import Str.

Lemma app_assoc (a b c : string) : (a +:+ b) +:+ c = a +:+ (b +:+ c).
Proof.
  induction a as [|x a IH]; [done|].
  change (String x ((a +:+ b) +:+ c) = String x (a +:+ (b +:+ c))).
  by rewrite IH.
Qed.

Lemma strip_prefix_app (lit rest : string) :
  strip_prefix lit (lit +:+ rest) = Some rest.
Proof.
  induction lit as [|c lit IH]; simpl; [done|].
  by rewrite Ascii.eqb_refl.
Qed.

Lemma starts_with_app (p s : string) : starts_with p (p +:+ s) = true.
Proof. unfold starts_with. by rewrite strip_prefix_app. Qed.

Lemma contains_unfold (needle s : string) :
  contains needle s
  = starts_with needle s
    || match s with
       | EmptyString => false
       | String _ r => contains needle r
       end.
Proof. by destruct s. Qed.

Lemma app_cons (c : ascii) (a s : string) : String c a +:+ s = String c (a +:+ s).
Proof. reflexivity. Qed.

Lemma app_empty (s : string) : EmptyString +:+ s = s.
Proof. reflexivity. Qed.

Lemma contains_app (needle a b : string) : contains needle (a +:+ needle +:+ b) = true.
Proof.
  induction a as [|c a IH].
  - rewrite app_empty, contains_unfold. by rewrite starts_with_app.
  - rewrite app_cons, contains_unfold. cbv iota. rewrite IH. apply orb_true_r.
Qed.

Lemma contains_app3 (n1 n2 n3 a b : string) :
  contains (n1 +:+ n2 +:+ n3) (a +:+ n1 +:+ n2 +:+ n3 +:+ b) = true.
Proof.
  replace (a +:+ n1 +:+ n2 +:+ n3 +:+ b) with (a +:+ (n1 +:+ n2 +:+ n3) +:+ b).
  - apply contains_app.
  - by rewrite !app_assoc.
Qed.

End Strings.

(** ** What a computation may do to the file store *)


Lemma kept_or_crlf_refl w : kept_or_crlf w w.
Proof. intros p text H. by left. Qed.

Section Combinators.
Context {A B : Type}.

Lemma writes_crlf_ret (a : A) : writes_crlf (ret a).
Proof. intros w0 w H. exact H. Qed.

Lemma writes_crlf_lift (o : outcome A) : writes_crlf (lift o).
Proof. intros w0 w H. exact H. Qed.

Lemma writes_crlf_bind (m : M A) (k : A -> M B) :
  writes_crlf m -> (forall a, writes_crlf (k a)) -> writes_crlf (bind m k).
Proof.
  intros Hm Hk w0 w H. unfold bind.
  specialize (Hm w0 w H). destruct (m w) as [[a|e|c] w']; simpl in *; auto.
  by apply Hk.
Qed.

Lemma writes_crlf_try (m : M A) (h : error -> M A) :
  writes_crlf m -> (forall e, writes_crlf (h e)) -> writes_crlf (try_catch m h).
Proof.
  intros Hm Hh w0 w H. unfold try_catch.
  specialize (Hm w0 w H). destruct (m w) as [[a|e|c] w']; simpl in *; auto.
  by apply Hh.
Qed.

End Combinators.

Lemma writes_crlf_forM {A} (l : list A) (body : A -> M unit) :
  (forall a, writes_crlf (body a)) -> writes_crlf (forM l body).
Proof.
  intros Hb. induction l as [|a l IH]; simpl.
  - apply writes_crlf_ret.
  - apply writes_crlf_bind; auto.
Qed.

Lemma writes_crlf_mapM {A B} (f : A -> M B) (l : list A) :
  (forall a, writes_crlf (f a)) -> writes_crlf (mapM f l).
Proof.
  intros Hf. induction l as [|a l IH]; simpl.
  - apply writes_crlf_ret.
  - apply writes_crlf_bind; [auto|]. intros b.
    apply writes_crlf_bind; [auto|]. intros bs. apply writes_crlf_ret.
Qed.

Lemma writes_crlf_existsSync p : writes_crlf (Fs.existsSync p).
Proof. intros w0 w H. exact H. Qed.

Lemma writes_crlf_mkdir p : writes_crlf (Fs.mkdir p).
Proof. intros w0 w H. exact H. Qed.

Lemma writes_crlf_rimraf p : writes_crlf (Fs.rimraf p).
Proof.
  intros w0 w H q text Hq. simpl in Hq.
  apply map_lookup_filter_Some in Hq as [Hq _]. by apply H.
Qed.

Lemma writes_crlf_readFile p : writes_crlf (Fs.readFile p).
Proof.
  intros w0 w H. unfold Fs.readFile. by destruct (files w !! p).
Qed.

Lemma writes_crlf_error e : writes_crlf (Console.error e).
Proof. intros w0 w H. exact H. Qed.

Lemma writes_crlf_log s : writes_crlf (Console.log s).
Proof. intros w0 w H. exact H. Qed.

Lemma writes_crlf_exit {A} c : writes_crlf (@process_exit A c).
Proof. intros w0 w H. exact H. Qed.

Lemma writes_crlf_writeFile path payload : writes_crlf (writeFile path payload).
Proof.
  intros w0 w H q text Hq. unfold writeFile, Fs.writeFile in Hq. simpl in Hq.
  destruct (decide (path = q)) as [->|Hne].
  - rewrite lookup_insert_eq in Hq. inversion Hq; subst. right.
    by exists (JS.to_string payload).
  - rewrite lookup_insert_ne in Hq by done. by apply H.
Qed.

Lemma writes_crlf_ensure_dir p : writes_crlf (ensure_dir p).
Proof.
  unfold ensure_dir. apply writes_crlf_bind; [apply writes_crlf_existsSync|].
  intros []; [apply writes_crlf_ret | apply writes_crlf_mkdir].
Qed.

Create HintDb crlf.
#[local] Hint Resolve writes_crlf_ret writes_crlf_lift writes_crlf_existsSync
  writes_crlf_mkdir writes_crlf_rimraf writes_crlf_readFile writes_crlf_error
  writes_crlf_log writes_crlf_writeFile writes_crlf_ensure_dir : crlf.

(** Splits a sequence of binds and closes the primitive steps. *)
Ltac crlf_steps :=
  repeat first
    [ progress eauto with crlf
    | apply writes_crlf_exit
    | apply writes_crlf_bind; [|intros ?]
    | apply writes_crlf_try; [|intros ?]
    | apply writes_crlf_forM; intros ?
    | apply writes_crlf_mapM; intros ? ].

Section Properties.
Import Str.

Variable cwd : string.
Variable registry : list value.
Variable crawlContent : gmap string string -> outcome (list value).
Variable registrySchema_safeParse : list value -> parsed (list value).
Variable registryEntrySchema_omit_safeParse : value -> parsed value.
Variable colors : list (string * value).
Variable colorMapping : list (string * value).
Variable baseColors : list value.

Lemma writes_crlf_buildRegistry data : writes_crlf (buildRegistry cwd data).
Proof. unfold buildRegistry. crlf_steps. Qed.

Lemma writes_crlf_buildBlockRegistry data :
  writes_crlf (buildBlockRegistry cwd data).
Proof. unfold buildBlockRegistry. crlf_steps. Qed.

Lemma writes_crlf_start_file f : writes_crlf (start_file cwd f).
Proof.
  unfold start_file. destruct (file_record f) as [file|e|c]; crlf_steps.
  destruct (read_path cwd file); crlf_steps.
Qed.

Lemma writes_crlf_finish_file s : writes_crlf (finish_file s).
Proof.
  destruct s; simpl; crlf_steps.
  match goal with |- context [match ?r with Some _ => _ | None => _ end] =>
    destruct r end; crlf_steps.
Qed.

#[local] Hint Resolve writes_crlf_start_file writes_crlf_finish_file : crlf.

Lemma writes_crlf_read_files l : writes_crlf (read_files cwd l).
Proof.
  unfold read_files. crlf_steps.
  destruct (first_rejection _); crlf_steps.
Qed.

#[local] Hint Resolve writes_crlf_read_files : crlf.

Lemma writes_crlf_style_files fs : writes_crlf (style_files cwd fs).
Proof.
  unfold style_files. destruct (JS.truthy fs); crlf_steps.
  destruct fs; crlf_steps.
Qed.

#[local] Hint Resolve writes_crlf_style_files : crlf.

Lemma writes_crlf_style_item item :
  writes_crlf (style_item cwd registryEntrySchema_omit_safeParse item).
Proof.
  unfold style_item. crlf_steps.
  match goal with |- context [if ?b then _ else _] => destruct b end; crlf_steps.
  destruct (registryEntrySchema_omit_safeParse _); crlf_steps.
Qed.

#[local] Hint Resolve writes_crlf_style_item : crlf.

Lemma writes_crlf_buildStyles data :
  writes_crlf (buildStyles cwd registryEntrySchema_omit_safeParse data).
Proof. unfold buildStyles. crlf_steps. Qed.

Lemma writes_crlf_write_theme cd b : writes_crlf (write_theme cwd colorMapping cd b).
Proof. unfold write_theme. crlf_steps. Qed.

#[local] Hint Resolve writes_crlf_write_theme : crlf.

Lemma writes_crlf_write_base cd b :
  writes_crlf (write_base cwd colorMapping baseColors cd b).
Proof. unfold write_base. crlf_steps. Qed.

#[local] Hint Resolve writes_crlf_write_base : crlf.

Lemma writes_crlf_buildThemes :
  writes_crlf (buildThemes cwd colors colorMapping baseColors).
Proof. unfold buildThemes. crlf_steps. Qed.

#[local] Hint Resolve writes_crlf_buildRegistry writes_crlf_buildBlockRegistry
  writes_crlf_buildStyles writes_crlf_buildThemes : crlf.


(** ** Output files end with a carriage return and a line feed *)


(** The write itself: the payload goes through a template literal and
    the pair is appended. *)
Lemma writeFile_spec (path : string) (payload : value) (w : World) :
  writeFile path payload w =
    (Ok tt, mkWorld (<[path := JS.to_string payload +:+ CRLF]> (files w))
                    (dirs w) (stdout w) (stderr w)).
Proof. reflexivity. Qed.

(** ** A registry that fails validation *)

Lemma ensure_dir_spec (p : string) (w : World) :
  exists w1, ensure_dir p w = (Ok tt, w1) /\ files w1 = files w
             /\ stderr w1 = stderr w /\ stdout w1 = stdout w.
Proof.
  unfold ensure_dir, bind, Fs.existsSync.
  destruct (_ || _); eexists; (split; [reflexivity|]); simpl; auto.
Qed.

(** C1.  When the static registry followed by the crawler's items fails
    the registry schema, the validation error is logged on the error
    stream, the process exits with code 1, and the file store is the one
    the run started with: no file was written. *)
Theorem invalid_registry_is_fatal (w : World) (content : list value) (err : error) :
  crawlContent (files w) = Ok content ->
  registrySchema_safeParse (registry ++ content) = ParseFail err ->
  let r := run cwd registry crawlContent registrySchema_safeParse
             registryEntrySchema_omit_safeParse colors colorMapping baseColors w in
  fst r = 1%Z /\ files (snd r) = files w
  /\ stderr (snd r) = (stderr w ++ [err])%list /\ stdout (snd r) = stdout w.
Proof.
  intros Hcrawl Hparse. unfold run, main, try_catch, pipeline, bind, crawl.
  destruct (ensure_dir_spec (NodePath.join_paths [cwd; "__registry__"]) w)
    as (w1 & E1 & Hf1 & He1 & Ho1).
  destruct (ensure_dir_spec (REGISTRY_PATH cwd) w1) as (w2 & E2 & Hf2 & He2 & Ho2).
  rewrite E1, E2. cbv beta iota. rewrite Hf2, Hf1, Hcrawl, Hparse.
  simpl. rewrite Hf2, Hf1, He2, He1, Ho2, Ho1. auto.
Qed.

(** ** Items without files in the generated modules *)

Lemma index_loop_skip (entry : value -> outcome (option string)) (item : value)
  (before after : list value) (index : string) :
  entry item = Ok None ->
  index_loop entry index (before ++ item :: after)%list
  = index_loop entry index (before ++ after)%list.
Proof.
  intros Hskip. revert index.
  induction before as [|a before IH]; intros index; simpl.
  - by rewrite Hskip.
  - destruct (entry a) as [e| |]; simpl; auto.
Qed.

Lemma index_entry_absent (item : value) :
  files_absent item -> index_entry cwd item = Ok None.
Proof. unfold index_entry. by intros [-> | ->]. Qed.

Lemma block_entry_absent (item : value) :
  files_absent item -> block_entry cwd item = Ok None.
Proof.
  unfold block_entry. intros H.
  assert (exists ty, JS.get item "type" = Ok ty) as [ty ->].
  { destruct item; destruct H as [H | H]; try discriminate H; eexists; reflexivity. }
  simpl. destruct (is_block ty); simpl; [|done].
  by destruct H as [-> | ->].
Qed.

(** C4, as the script has it.  An item without a [files] property is
    passed over by both loops without an error, and no entry for it
    appears in the index module or in the block module. *)
Theorem absent_files_no_entry (item : value) :
  files_absent item ->
  index_entry cwd item = Ok None /\ block_entry cwd item = Ok None
  /\ no_entry_for cwd item.
Proof.
  intros H. pose proof (index_entry_absent item H) as Hi.
  pose proof (block_entry_absent item H) as Hb.
  split; [done|]. split; [done|]. intros before after.
  unfold index_module, block_module.
  by rewrite !(index_loop_skip _ item before after).
Qed.

(** ** The component path *)

Lemma componentPath_record (item first : value) (rest : list value)
  (ty name p : string) :
  JS.get item "type" = Ok (VStr ty) ->
  JS.get item "name" = Ok (VStr name) ->
  JS.get first "path" = Ok (VStr p) ->
  componentPath item (first :: rest) = Ok ("@/components/content/inspira/" +:+ p).
Proof. intros Ht Hn Hp. unfold componentPath. by rewrite Ht, Hn, Hp. Qed.

Lemma componentPath_no_file (item : value) (ty name : string) :
  JS.get item "type" = Ok (VStr ty) ->
  JS.get item "name" = Ok (VStr name) ->
  componentPath item [] =
    Ok ("@/components/content/inspira/"
          +:+ JS.to_string (match split_on ":"%char ty with
                            | _ :: second :: _ => VStr second
                            | _ => VUndef
                            end)
          +:+ "/" +:+ name).
Proof. intros Ht Hn. unfold componentPath. by rewrite Ht, Hn. Qed.

Lemma componentPath_bare_path (item : value) (rest : list value) (ty s : string) :
  JS.get item "type" = Ok (VStr ty) ->
  componentPath item (VStr s :: rest) = Ok "@/components/content/inspira/undefined".
Proof.
  intros Ht. unfold componentPath. rewrite Ht. simpl.
  destruct item; try discriminate Ht; reflexivity.
Qed.

(** The component path is the one the entry imports the component from. *)
Lemma index_entry_component (item : value) (text : string) :
  index_entry cwd item = Ok (Some text) ->
  exists l path,
    JS.get item "files" = Ok (VArr l) /\ componentPath item l = Ok path
    /\ contains ("    component: () => import(" +:+ quoted path
                   +:+ ").then((m) => m.default),") text = true.
Proof.
  unfold index_entry. intros H.
  destruct (JS.get item "files") as [fs| |] eqn:Efs; cbn [obind] in H;
    try discriminate H.
  destruct fs; cbn [optional_array obind] in H; try discriminate H.
  destruct (omapM resolveFile elems); cbn [obind] in H; try discriminate H.
  destruct (componentPath item elems) as [path| |] eqn:Epath; cbn [obind] in H;
    try discriminate H.
  destruct (omapM (index_file cwd) elems); cbn [obind] in H; try discriminate H.
  destruct (entry_head item _) as [head| |]; cbn [obind] in H; try discriminate H.
  destruct (entry_tail item) as [tail| |]; cbn [obind] in H; try discriminate H.
  inversion H. exists elems, path. split; [done|]. split; [done|].
  apply contains_app3.
Qed.

Lemma block_entry_component (item : value) (text : string) :
  block_entry cwd item = Ok (Some text) ->
  exists l path,
    JS.get item "files" = Ok (VArr l) /\ componentPath item l = Ok path
    /\ contains ("    component: () => import(" +:+ quoted path
                   +:+ ").then((m) => m.default),") text = true.
Proof.
  unfold block_entry. intros H.
  destruct (JS.get item "type") as [ty| |]; cbn [obind] in H; try discriminate H.
  destruct (negb (is_block ty)); [discriminate H|].
  destruct (JS.get item "files") as [fs| |] eqn:Efs; cbn [obind] in H;
    try discriminate H.
  destruct fs; cbn [optional_array obind] in H; try discriminate H.
  destruct (omapM resolveFile elems); cbn [obind] in H; try discriminate H.
  destruct (componentPath item elems) as [path| |] eqn:Epath; cbn [obind] in H;
    try discriminate H.
  destruct (omapM (block_file cwd) elems); cbn [obind] in H; try discriminate H.
  destruct (entry_head item _) as [head| |]; cbn [obind] in H; try discriminate H.
  destruct (entry_tail item) as [tail| |]; cbn [obind] in H; try discriminate H.
  inversion H. exists elems, path. split; [done|]. split; [done|].
  apply contains_app3.
Qed.

End Properties.

(** C4, as stated, fails: a block with an empty list of files references
    no file, and both modules carry an entry for it. *)
Lemma empty_files_still_listed :
  zero_file_references Sample.hero
  /\ ~ no_entry_for Sample.cwd Sample.hero
  /\ match index_module Sample.cwd [Sample.hero], block_module Sample.cwd [Sample.hero] with
     | Ok index, Ok block =>
         Str.contains (Str.quoted "hero" +:+ ": {") index = true
         /\ Str.contains (Str.quoted "hero" +:+ ": {") block = true
     | _, _ => False
     end.
Proof.
  split; [|split].
  - right. right. reflexivity.
  - intros H. destruct (H [] []) as [Hindex _].
    apply (f_equal (fun o => match o with
                             | Ok text => String.length text
                             | _ => 0
                             end)) in Hindex.
    vm_compute in Hindex. discriminate Hindex.
  - vm_compute. split; reflexivity.
Qed.

Lemma absent_files_no_entry_witness :
  files_absent Sample.plain /\ no_entry_for Sample.cwd Sample.plain.
Proof.
  assert (files_absent Sample.plain) as H by (left; reflexivity).
  split; [exact H|].
  exact (proj2 (proj2 (absent_files_no_entry Sample.cwd Sample.plain H))).
Defined.

(** C5 at an item whose first file is a bare path: the files array of the
    entry resolves the path, and the component path reads a [path]
    property the string does not have, so that the entry imports the
    component from a path that ends in [undefined]. *)
Theorem bare_path_component_path :
  resolveFile (VStr "ui/bare.vue") = Ok "components/content/inspira/ui/bare.vue"
  /\ file_path (VStr "ui/bare.vue") = Ok (VStr "ui/bare.vue")
  /\ componentPath Sample.bare [VStr "ui/bare.vue"]
     = Ok "@/components/content/inspira/undefined"
  /\ match index_module Sample.cwd [Sample.bare] with
     | Ok text =>
         Str.contains ("component: () => import("
                         +:+ Str.quoted "@/components/content/inspira/undefined" +:+ ")")
           text = true
         /\ Str.contains (Str.quoted "/app/components/content/inspira/ui/bare.vue")
              text = true
     | _ => False
     end.
Proof. vm_compute. repeat split. Qed.

(** ** The channel strings *)

Section Channels.
Import Str.

(** A greedy class stops where the first character outside it stands. *)
Lemma span_app (p : ascii -> bool) (g : string) (c : ascii) (rest : string) :
  all_chars p g = true -> p c = false ->
  span p (g +:+ String c rest) = (g, String c rest).
Proof.
  intros Hg Hc. induction g as [|x g IH]; simpl in *.
  - by rewrite Hc.
  - apply andb_true_iff in Hg as [Hx Hg]. rewrite Hx, (IH Hg). done.
Qed.

Lemma group_then_app (p : ascii -> bool) (g : string) (c : ascii)
  (lit rest : string) :
  g <> EmptyString -> all_chars p g = true -> p c = false ->
  Pattern.group_then p (String c lit) (g +:+ String c lit +:+ rest)
  = Some (g, rest).
Proof.
  intros Hne Hg Hc. unfold Pattern.group_then.
  change (g +:+ String c lit +:+ rest) with (g +:+ String c (lit +:+ rest)).
  rewrite (span_app p g c (lit +:+ rest) Hg Hc).
  destruct g as [|x g]; [done|].
  change (String c (lit +:+ rest)) with (String c lit +:+ rest).
  by rewrite strip_prefix_app.
Qed.

Lemma match_rgb_triple (r g b : string) :
  digits r -> digits g -> digits b ->
  Pattern.match_rgb ("rgb(" +:+ r +:+ "," +:+ g +:+ "," +:+ b +:+ ")")
  = Some (r, g, b).
Proof.
  intros [Hr1 Hr2] [Hg1 Hg2] [Hb1 Hb2]. unfold Pattern.match_rgb.
  change ("rgb(" +:+ r +:+ "," +:+ g +:+ "," +:+ b +:+ ")")
    with ("rgb(" +:+ (r +:+ "," +:+ (g +:+ "," +:+ (b +:+ ")" +:+ EmptyString)))).
  rewrite strip_prefix_app.
  rewrite (group_then_app is_digit r ","%char EmptyString _ Hr1 Hr2 eq_refl).
  rewrite (group_then_app is_digit g ","%char EmptyString _ Hg1 Hg2 eq_refl).
  by rewrite (group_then_app is_digit b ")"%char EmptyString _ Hb1 Hb2 eq_refl).
Qed.

Lemma match_hsl_triple (h s l : string) :
  digits_or_dots h -> digits_or_dots s -> digits_or_dots l ->
  Pattern.match_hsl ("hsl(" +:+ h +:+ "," +:+ s +:+ "%," +:+ l +:+ "%)")
  = Some (h, s +:+ "%", l +:+ "%").
Proof.
  intros [Hh1 Hh2] [Hs1 Hs2] [Hl1 Hl2]. unfold Pattern.match_hsl.
  change ("hsl(" +:+ h +:+ "," +:+ s +:+ "%," +:+ l +:+ "%)")
    with ("hsl(" +:+ (h +:+ "," +:+ (s +:+ "%," +:+ (l +:+ "%)" +:+ EmptyString)))).
  rewrite strip_prefix_app.
  rewrite (group_then_app is_digit_or_dot h ","%char EmptyString _ Hh1 Hh2 eq_refl).
  rewrite (group_then_app is_digit_or_dot s "%"%char "," _ Hs1 Hs2 eq_refl).
  by rewrite (group_then_app is_digit_or_dot l "%"%char ")" _ Hl1 Hl2 eq_refl).
Qed.

(** C6, as the script has it.  An RGB string [rgb(r,g,b)] is re-emitted
    as the three integers separated by spaces, and an HSL string
    [hsl(h,s%,l%)] as three tokens separated by spaces in which the two
    percentages keep their percent sign; so [rgb(10,20,30)] gives
    [10 20 30] and [hsl(210,50%,40%)] gives [210 50% 40%]. *)
Theorem channel_strings (r g b h s l : string) :
  digits r -> digits g -> digits b ->
  digits_or_dots h -> digits_or_dots s -> digits_or_dots l ->
  Pattern.rgbChannel (VStr ("rgb(" +:+ r +:+ "," +:+ g +:+ "," +:+ b +:+ ")"))
  = Ok (VStr (r +:+ " " +:+ g +:+ " " +:+ b))
  /\ Pattern.hslChannel (VStr ("hsl(" +:+ h +:+ "," +:+ s +:+ "%," +:+ l +:+ "%)"))
     = Ok (VStr (h +:+ " " +:+ s +:+ "% " +:+ l +:+ "%")).
Proof.
  intros Hr Hg Hb Hh Hs Hl.
  unfold Pattern.rgbChannel, Pattern.hslChannel, Pattern.replace_on,
    Pattern.replace_groups.
  rewrite (match_rgb_triple r g b Hr Hg Hb), (match_hsl_triple h s l Hh Hs Hl).
  split; [done|]. by rewrite app_assoc.
Qed.

End Channels.

Lemma digits_10 : digits "10" /\ digits "20" /\ digits "30".
Proof. repeat split; discriminate. Defined.

Lemma digits_or_dots_210 :
  digits_or_dots "210" /\ digits_or_dots "50" /\ digits_or_dots "40".
Proof. repeat split; discriminate. Defined.

Lemma channel_strings_witness :
  Pattern.rgbChannel (VStr "rgb(10,20,30)") = Ok (VStr "10 20 30")
  /\ Pattern.hslChannel (VStr "hsl(210,50%,40%)") = Ok (VStr "210 50% 40%").
Proof.
  exact (channel_strings "10" "20" "30" "210" "50" "40"
           (proj1 digits_10) (proj1 (proj2 digits_10)) (proj2 (proj2 digits_10))
           (proj1 digits_or_dots_210) (proj1 (proj2 digits_or_dots_210))
           (proj2 (proj2 digits_or_dots_210))).
Defined.

(** C6, as stated, fails: the channel string of [hsl(210,50%,40%)] is
    [210 50% 40%], so the percent sign is not omitted from the two
    trailing components. *)
Lemma hsl_channel_keeps_percent :
  Pattern.hslChannel (VStr "hsl(210,50%,40%)") = Ok (VStr "210 50% 40%")
  /\ Pattern.hslChannel (VStr "hsl(210,50%,40%)") <> Ok (VStr "210 50 40")
  /\ match Pattern.match_hsl "hsl(210,50%,40%)" with
     | Some (_, second, third) =>
         Str.contains "%" second = true /\ Str.contains "%" third = true
     | None => False
     end.
Proof. repeat split; discriminate. Qed.

(** ** The flat colour index *)

Section ColourIndex.

Lemma eqb_string_refl (k : string) : (k =? k)%string = true.
Proof. by apply String.eqb_eq. Qed.

Lemma eqb_string_ne (k k' : string) : k <> k' -> (k =? k')%string = false.
Proof. intros H. by apply String.eqb_neq. Qed.

Lemma assoc_set_eq (k : string) (v : value) (l : list (string * value)) :
  JS.assoc k (JS.assoc_set k v l) = Some v.
Proof.
  induction l as [|[k' v'] l IH]; simpl.
  - by rewrite eqb_string_refl.
  - destruct (k' =? k)%string eqn:E; simpl.
    + by rewrite eqb_string_refl.
    + by rewrite E.
Qed.

Lemma assoc_set_ne (k k' : string) (v : value) (l : list (string * value)) :
  k <> k' -> JS.assoc k' (JS.assoc_set k v l) = JS.assoc k' l.
Proof.
  intros Hne. induction l as [|[k0 v0] l IH]; simpl.
  - by rewrite eqb_string_ne.
  - destruct (k0 =? k)%string eqn:E; simpl.
    + apply String.eqb_eq in E as ->. by rewrite !eqb_string_ne.
    + by rewrite IH.
Qed.

Lemma omapM_Forall2 {A B} (f : A -> outcome B) (l : list A) (l' : list B) :
  omapM f l = Ok l' -> Forall2 (fun a b => f a = Ok b) l l'.
Proof.
  revert l'. induction l as [|a l IH]; intros l' H; simpl in H.
  - inversion H. constructor.
  - destruct (f a) as [b| |] eqn:Ea; simpl in H; try discriminate H.
    destruct (omapM f l) as [bs| |] eqn:El; simpl in H; try discriminate H.
    inversion H; subst. constructor; auto.
Qed.

Lemma replace_on_string what m (v r : value) :
  Pattern.replace_on what m v = Ok r ->
  exists s, v = VStr s /\ r = VStr (Pattern.replace_groups m s).
Proof.
  destruct v; simpl; intros H; try discriminate H.
  inversion H. eauto.
Qed.

Lemma with_channels_augmented (item item' : value) :
  with_channels item = Ok item' -> augmented item item'.
Proof.
  unfold with_channels. intros H.
  destruct (JS.get item "rgb") as [rgbv| |] eqn:Ergb; simpl in H; try discriminate H.
  destruct (Pattern.rgbChannel rgbv) as [rgbC| |] eqn:EC1; simpl in H;
    try discriminate H.
  destruct (JS.get item "hsl") as [hslv| |] eqn:Ehsl; simpl in H; try discriminate H.
  destruct (Pattern.hslChannel hslv) as [hslC| |] eqn:EC2; simpl in H;
    try discriminate H.
  apply replace_on_string in EC1 as (rgb & -> & ->).
  apply replace_on_string in EC2 as (hsl & -> & ->).
  inversion H; subst item'. exists rgb, hsl.
  split; [done|]. split; [done|]. unfold JS.set, JS.get. simpl JS.spread.
  split; [|split].
  - by rewrite assoc_set_ne, assoc_set_eq.
  - by rewrite assoc_set_eq.
  - intros k H1 H2. by rewrite !assoc_set_ne.
Qed.

Lemma with_channels_shades (shades shades' : list value) :
  omapM with_channels shades = Ok shades' -> Forall2 augmented shades shades'.
Proof.
  intros H. apply omapM_Forall2 in H.
  induction H; constructor; auto using with_channels_augmented.
Qed.


Lemma colorsData_step_own acc color v next :
  colorsData_step acc (color, v) = Ok next ->
  stored_as v (JS.assoc color next).
Proof.
  unfold colorsData_step. intros H. destruct v; simpl; auto.
  - cbv in H. discriminate H.
  - inversion H. apply assoc_set_eq.
  - destruct (omapM with_channels elems) as [shades'| |] eqn:E; simpl in H;
      try discriminate H.
    inversion H. exists shades'. split; [apply assoc_set_eq|].
    by apply with_channels_shades.
  - destruct (with_channels (VObj props)) as [v'| |] eqn:E; simpl in H;
      try discriminate H.
    inversion H. exists v'. split; [apply assoc_set_eq|].
    by apply with_channels_augmented.
Qed.

Lemma colorsData_step_other acc color v next k :
  colorsData_step acc (color, v) = Ok next -> color <> k ->
  JS.assoc k next = JS.assoc k acc.
Proof.
  unfold colorsData_step. intros H Hne.
  destruct v; simpl in H; try (inversion H; subst; reflexivity).
  - inversion H. by apply assoc_set_ne.
  - destruct (omapM with_channels elems); simpl in H; inversion H.
    by apply assoc_set_ne.
  - destruct (with_channels (VObj props)); simpl in H; inversion H.
    by apply assoc_set_ne.
Qed.

Lemma colorsData_loop_other entries acc cd k :
  colorsData_loop acc entries = Ok cd -> ~ In k (map fst entries) ->
  JS.assoc k cd = JS.assoc k acc.
Proof.
  revert acc. induction entries as [|[color v] entries IH]; intros acc H Hk;
    cbn [colorsData_loop] in H.
  - by inversion H.
  - destruct (colorsData_step acc (color, v)) as [next| |] eqn:E;
      cbn [obind] in H; try discriminate H.
    rewrite (IH next H).
    + apply (colorsData_step_other _ _ _ _ _ E). intros ->. apply Hk. by left.
    + intros Hin. apply Hk. by right.
Qed.

Lemma colorsData_loop_own entries acc cd color v :
  NoDup (map fst entries) -> colorsData_loop acc entries = Ok cd ->
  In (color, v) entries -> stored_as v (JS.assoc color cd).
Proof.
  revert acc. induction entries as [|[c0 v0] entries IH]; intros acc Hnd H Hin;
    cbn [colorsData_loop] in H; [destruct Hin|].
  destruct (colorsData_step acc (c0, v0)) as [next| |] eqn:E; cbn [obind] in H;
    try discriminate H.
  simpl in Hnd. apply NoDup_cons in Hnd as [Hfresh Hnd].
  destruct Hin as [Heq | Hin].
  - inversion Heq; subst c0 v0.
    rewrite (colorsData_loop_other _ _ _ _ H).
    + by apply (colorsData_step_own acc).
    + intros Hin. apply Hfresh. by apply list_elem_of_In.
  - by apply (IH next).
Qed.

(** C8, as the script has it.  In the flat colour index an entry of the
    colour table that is an array has each of its shades augmented with
    the [rgbChannel] and [hslChannel] computed from its [rgb] and [hsl]
    strings, an entry that is a single object is augmented likewise,
    and an entry that is a string is stored as it is. *)
Theorem flat_index_entries (colors cd : list (string * value))
  (color : string) (v : value) :
  NoDup (map fst colors) ->
  build_colorsData colors = Ok cd ->
  In (color, v) colors ->
  match v with
  | VStr _ => JS.assoc color cd = Some v
  | VArr shades =>
      exists shades', JS.assoc color cd = Some (VArr shades')
                      /\ Forall2 augmented shades shades'
  | VObj _ => exists v', JS.assoc color cd = Some v' /\ augmented v v'
  | _ => True
  end.
Proof.
  intros Hnd H Hin.
  pose proof (colorsData_loop_own colors [] cd color v Hnd H Hin) as Hs.
  destruct v; simpl in Hs; auto.
Qed.

End ColourIndex.

Lemma flat_index_entries_witness :
  exists shades',
    JS.assoc "slate" Sample.colorsData = Some (VArr shades')
    /\ Forall2 augmented
         [Sample.shade 50 "rgb(248,250,252)" "hsl(210,40%,98%)";
          Sample.shade 950 "rgb(2,6,23)" "hsl(229,84%,5%)"] shades'.
Proof.
  apply (flat_index_entries Sample.colors Sample.colorsData "slate"
           (VArr [Sample.shade 50 "rgb(248,250,252)" "hsl(210,40%,98%)";
                  Sample.shade 950 "rgb(2,6,23)" "hsl(229,84%,5%)"])).
  - apply (bool_decide_unpack _). vm_compute. exact I.
  - vm_compute. reflexivity.
  - right. right. left. reflexivity.
Defined.

(** C8, as stated, fails: a colour given as a string is copied to the
    flat index as it is, without channel fields. *)
Lemma scalar_colour_not_augmented :
  build_colorsData [("transparent", VStr "transparent")]
  = Ok [("transparent", VStr "transparent")]
  /\ ~ entry_augmented (VStr "transparent") (VStr "transparent").
Proof.
  split; [reflexivity|].
  intros (rgb & hsl & H & _). discriminate H.
Qed.

(** ** Per-item style emission *)

Lemma reads_only_ret {A} (a : A) : reads_only (ret a).
Proof. by intros w. Qed.

Lemma reads_only_lift {A} (o : outcome A) : reads_only (lift o).
Proof. by intros w. Qed.

Lemma reads_only_bind {A B} (m : M A) (k : A -> M B) :
  reads_only m -> (forall a, reads_only (k a)) -> reads_only (bind m k).
Proof.
  intros Hm Hk w. unfold bind. specialize (Hm w).
  destruct (m w) as [[a|e|c] w']; simpl in *; auto.
  destruct (Hk a w') as (H1 & H2 & H3). destruct Hm as (G1 & G2 & G3).
  rewrite H1, H2, H3. auto.
Qed.

Lemma reads_only_try {A} (m : M A) (h : error -> M A) :
  reads_only m -> (forall e, reads_only (h e)) -> reads_only (try_catch m h).
Proof.
  intros Hm Hh w. unfold try_catch. specialize (Hm w).
  destruct (m w) as [[a|e|c] w']; simpl in *; auto.
  destruct (Hh e w') as (H1 & H2 & H3). destruct Hm as (G1 & G2 & G3).
  rewrite H1, H2, H3. auto.
Qed.

Lemma reads_only_mapM {A B} (f : A -> M B) (l : list A) :
  (forall a, reads_only (f a)) -> reads_only (mapM f l).
Proof.
  intros Hf. induction l as [|a l IH]; simpl.
  - apply reads_only_ret.
  - apply reads_only_bind; [auto|]. intros b.
    apply reads_only_bind; [auto|]. intros bs. apply reads_only_ret.
Qed.

Lemma reads_only_readFile p : reads_only (Fs.readFile p).
Proof. intros w. unfold Fs.readFile. by destruct (files w !! p). Qed.

Lemma reads_only_error e : reads_only (Console.error e).
Proof. by intros w. Qed.

Lemma mapM_length {A B} (f : A -> M B) (l : list A) (w w' : World) (bs : list B) :
  mapM f l w = (Ok bs, w') -> length bs = length l.
Proof.
  revert w bs. induction l as [|a l IH]; intros w bs H; simpl in H.
  - inversion H. reflexivity.
  - unfold bind in H. destruct (f a w) as [[b|e|c] w1]; try discriminate H.
    destruct (mapM f l w1) as [[bs'|e|c] w2] eqn:E; try discriminate H.
    inversion H; subst. simpl. f_equal. by apply (IH w1).
Qed.

Section StyleEmission.
Import Str.

Variable cwd : string.
Variable registryEntrySchema_omit_safeParse : value -> parsed value.

Lemma reads_only_start_file f : reads_only (start_file cwd f).
Proof.
  unfold start_file. destruct (file_record f) as [file|e|c]; try by intros w.
  destruct (read_path cwd file); [by intros w|].
  apply reads_only_bind; [apply reads_only_error|]. intros _. apply reads_only_ret.
Qed.

Lemma reads_only_finish_file s : reads_only (finish_file s).
Proof.
  destruct s; simpl; try apply reads_only_ret.
  apply reads_only_bind.
  - apply reads_only_try.
    + apply reads_only_bind; [apply reads_only_readFile|].
      intros c. apply reads_only_ret.
    + intros e. apply reads_only_bind; [apply reads_only_error|].
      intros _. apply reads_only_ret.
  - intros [content|]; [apply reads_only_lift | apply reads_only_ret].
Qed.

Lemma reads_only_read_files l : reads_only (read_files cwd l).
Proof.
  unfold read_files. apply reads_only_bind.
  - apply reads_only_mapM, reads_only_start_file.
  - intros ss. destruct (first_rejection ss); [apply reads_only_lift|].
    apply reads_only_mapM, reads_only_finish_file.
Qed.

Lemma reads_only_style_files fs : reads_only (style_files cwd fs).
Proof.
  unfold style_files. destruct (JS.truthy fs); [|apply reads_only_ret].
  destruct fs; try apply reads_only_lift.
  apply reads_only_bind; [apply reads_only_read_files|].
  intros c. apply reads_only_ret.
Qed.

(** The array handed to validation has one slot for every file the
    item references. *)
Lemma read_files_length l w contents w' :
  read_files cwd l w = (Ok contents, w') -> length contents = length l.
Proof.
  unfold read_files, bind. intros H.
  destruct (mapM (start_file cwd) l w) as [[ss|e|c] w1] eqn:E1; try discriminate H.
  destruct (first_rejection ss); [discriminate H|].
  apply mapM_length in H. apply mapM_length in E1. congruence.
Qed.



(** One pass of the loop on an item of a whitelisted type. *)
Lemma style_item_whitelisted (item ty fs : value) (w : World) :
  JS.get item "type" = Ok ty ->
  includes REGISTRY_INDEX_WHITELIST ty = true ->
  JS.get item "files" = Ok fs ->
  style_item cwd registryEntrySchema_omit_safeParse item w
  = bind (style_files cwd fs)
      (fun contents =>
         match registryEntrySchema_omit_safeParse (JS.set item "files" contents) with
         | ParseOk data =>
             bind (lift (JS.get item "name"))
               (fun name => writeFile (style_document cwd name) (JS.stringify "  " data))
         | ParseFail _ => ret tt
         end) w.
Proof.
  intros Hty Hwl Hfs. unfold style_item, bind at 1, lift at 1. rewrite Hty, Hwl.
  cbn [negb]. unfold bind at 1, lift at 1. by rewrite Hfs.
Qed.


(** *** A file that cannot be read *)

Lemma start_file_source f file path w :
  source cwd f = Some (file, path) -> start_file cwd f w = (Ok (Reading file path), w).
Proof.
  unfold source, start_file. destruct (file_record f) as [r| |]; try discriminate.
  destruct (read_path cwd r); try discriminate. intros H. by inversion H.
Qed.

Lemma finish_file_found file path content w :
  files w !! path = Some content ->
  finish_file (Reading file path) w = (file_entry file content, w).
Proof.
  intros H. simpl. unfold bind, try_catch, Fs.readFile, lift. by rewrite H.
Qed.

Lemma finish_file_missing file path w :
  files w !! path = None ->
  finish_file (Reading file path) w
  = (Ok VUndef, mkWorld (files w) (dirs w) (stdout w)
                        (stderr w ++ [FsError "ENOENT" path])%list).
Proof.
  intros H. simpl. unfold bind, try_catch, Fs.readFile. by rewrite H.
Qed.

(** The reads of a file that is there and of one that is not: the second
    slot is [undefined] and the failure is on the error stream. *)
Lemma style_files_found_and_missing (f1 f2 r1 r2 entry1 : value) (q1 q2 c1 : string)
  (w : World) :
  source cwd f1 = Some (r1, q1) -> files w !! q1 = Some c1 ->
  file_entry r1 c1 = Ok entry1 ->
  source cwd f2 = Some (r2, q2) -> files w !! q2 = None ->
  style_files cwd (VArr [f1; f2]) w
  = (Ok (VArr [entry1; VUndef]),
     mkWorld (files w) (dirs w) (stdout w) (stderr w ++ [FsError "ENOENT" q2])%list).
Proof.
  intros Hs1 Hc1 He1 Hs2 Hc2. unfold style_files, read_files.
  change (JS.truthy (VArr [f1; f2])) with true. cbv iota.
  cbn [mapM]. unfold bind, ret. cbv beta.
  rewrite (start_file_source f1 r1 q1 w Hs1).
  rewrite (start_file_source f2 r2 q2 w Hs2).
  cbn [first_rejection mapM]. unfold bind, ret. cbv beta.
  rewrite (finish_file_found r1 q1 c1 w Hc1), He1.
  by rewrite (finish_file_missing r2 q2 w Hc2).
Qed.


End StyleEmission.

(** ** The two resolutions of a base colour *)

Section TwoPasses.

Variable colorsData : list (string * value).
Variable baseColor : string.
Variables mode key : string.






End TwoPasses.




(** ** The statements on the sample inputs *)

Lemma invalid_registry_is_fatal_witness :
  let r := run Sample.cwd [Sample.button; Sample.nameless] Sample.no_content
             Sample.named_registry Sample.strict_entry Sample.colors
             Sample.colorMapping Sample.baseColors Sample.disk in
  fst r = 1%Z /\ files (snd r) = files Sample.disk
  /\ stderr (snd r) = (stderr Sample.disk ++ [ZodError "name: Required"])%list
  /\ stdout (snd r) = stdout Sample.disk.
Proof.
  apply (invalid_registry_is_fatal Sample.cwd [Sample.button; Sample.nameless]
           Sample.no_content Sample.named_registry Sample.strict_entry Sample.colors
           Sample.colorMapping Sample.baseColors Sample.disk []
           (ZodError "name: Required")).
  - reflexivity.
  - vm_compute. reflexivity.
Defined.





(** The same under every entry schema that validates without changing
    the payload: the document with only the entry of the existing file is
    never the one written. *)
Lemma validating_schema_keeps_the_hole (safeParse : value -> parsed value) :
  (forall payload data, safeParse payload = ParseOk data -> data = payload) ->
  files (snd (style_item Sample.cwd safeParse Sample.card Sample.disk))
    !! "/app/public/r/styles/card.json"
  <> Some (JS.to_string
             (JS.stringify "  " (JS.set Sample.card "files" (VArr [Sample.card_entry])))
             +:+ Str.CRLF).
Proof.
  intros Hvalidates.
  rewrite (style_item_whitelisted Sample.cwd safeParse Sample.card (VStr "registry:ui")
             (VArr [Sample.file "ui/card.vue" "registry:ui";
                    Sample.file "ui/missing.vue" "registry:ui"])
             Sample.disk eq_refl eq_refl eq_refl).
  unfold bind at 1.
  rewrite (style_files_found_and_missing Sample.cwd
             (Sample.file "ui/card.vue" "registry:ui")
             (Sample.file "ui/missing.vue" "registry:ui")
             (VObj [("path", VStr "ui/card.vue"); ("type", VStr "registry:ui");
                    ("content", VStr EmptyString); ("target", VStr EmptyString)])
             (VObj [("path", VStr "ui/missing.vue"); ("type", VStr "registry:ui");
                    ("content", VStr EmptyString); ("target", VStr EmptyString)])
             Sample.card_entry
             "/app/components/content/inspira/ui/card.vue"
             "/app/components/content/inspira/ui/missing.vue"
             "<template>card</template>" Sample.disk);
    try (vm_compute; reflexivity).
  destruct (safeParse _) as [data|e] eqn:E.
  - apply Hvalidates in E. subst data. intros H.
    apply (f_equal (fun o => match o with
                             | Some text => String.length text
                             | None => 0
                             end)) in H.
    vm_compute in H. discriminate H.
  - vm_compute. discriminate.
Qed.



(** ** The registry index document *)

Section RegistryIndex.
Import Str.

Variable cwd : string.


(** The items kept for the document are the items of type
    [registry:ui], in the order of the registry. *)
Lemma filter_type_spec (tys : list string) (items kept : list value) :
  filter_type tys items = Ok kept ->
  forall item, In item kept <->
    In item items /\ exists ty, JS.get item "type" = Ok ty /\ includes tys ty = true.
Proof.
  revert kept. induction items as [|a items IH]; intros kept H item;
    cbn [filter_type] in H.
  - inversion H. simpl. split; [tauto | intros [[] _]].
  - destruct (JS.get a "type") as [ty| |] eqn:Ety; cbn [obind] in H;
      try discriminate H.
    destruct (filter_type tys items) as [kept'| |] eqn:Ek; cbn [obind] in H;
      try discriminate H.
    specialize (IH kept' eq_refl item). inversion H; subst kept. clear H.
    destruct (includes tys ty) eqn:Einc; simpl; rewrite ?IH; split.
    + intros [-> | [Hin Hty]]; [split; [by left | eauto] | split; [by right | done]].
    + intros [[-> | Hin] Hty]; [by left | right; by split].
    + intros [Hin Hty]. split; [by right | done].
    + intros [[-> | Hin] (ty' & Hty & Hinc)]; [|by split; [|eauto]].
      rewrite Ety in Hty. inversion Hty; subst. congruence.
Qed.

(** A file given as a record is replaced by its path and the type of
    the item. *)
Lemma index_json_file_record (ty file : value) (p : string) :
  JS.get file "path" = Ok (VStr p) ->
  index_json_file ty file = Ok (VObj [("path", VStr p); ("type", ty)]).
Proof. intros H. unfold index_json_file. by rewrite H. Qed.

Lemma index_json_files_records (ty : value) (l : list value) (paths : list string) :
  Forall2 (fun file p => JS.get file "path" = Ok (VStr p)) l paths ->
  omapM (index_json_file ty) l
  = Ok (map (fun p => VObj [("path", VStr p); ("type", ty)]) paths).
Proof.
  induction 1 as [|file p l paths Hp _ IH]; [reflexivity|].
  cbn [omapM map]. rewrite (index_json_file_record ty file p Hp), IH. reflexivity.
Qed.

(** An item whose files are records keeps its properties and has every
    file replaced by the path of the file and the type of the item. *)
Lemma index_json_item_records (item ty : value) (l : list value) (paths : list string) :
  JS.get item "files" = Ok (VArr l) ->
  JS.get item "type" = Ok ty ->
  Forall2 (fun file p => JS.get file "path" = Ok (VStr p)) l paths ->
  index_json_item item
  = Ok (JS.set item "files"
          (VArr (map (fun p => VObj [("path", VStr p); ("type", ty)]) paths))).
Proof.
  intros Hfs Hty Hl. unfold index_json_item. rewrite Hfs, Hty.
  cbn [obind optional_array]. by rewrite (index_json_files_records ty l paths Hl).
Qed.

(** The document lists the kept items, each one rewritten, in order. *)
Lemma index_json_items_spec (data items : list value) :
  index_json_items data = Ok items ->
  exists kept,
    filter_type ["registry:ui"] data = Ok kept
    /\ Forall2 (fun item out => index_json_item item = Ok out) kept items.
Proof.
  unfold index_json_items. intros H.
  destruct (filter_type ["registry:ui"] data) as [kept| |]; cbn [obind] in H;
    try discriminate H.
  exists kept. split; [done|]. by apply omapM_Forall2.
Qed.

(** What [buildRegistry] leaves at [public/r/index.json]. *)
Lemma buildRegistry_index_json (data items : list value) (index : string) (w : World) :
  index_module cwd data = Ok index ->
  index_json_items data = Ok items ->
  Fs.is_under (index_ts_path cwd) (index_json_path cwd) = false ->
  files (snd (buildRegistry cwd data w)) !! index_json_path cwd
  = Some (JS.to_string (JS.stringify "  " (VArr items)) +:+ CRLF).
Proof.
  intros Hindex Hitems Hapart.
  unfold buildRegistry, bind, lift. rewrite Hindex, Hitems. simpl.
  fold (index_json_path cwd) (index_ts_path cwd).
  assert (index_ts_path cwd <> index_json_path cwd) as Hne.
  { intros Heq. unfold Fs.is_under in Hapart. rewrite Heq in Hapart.
    by rewrite eqb_string_refl in Hapart. }
  rewrite lookup_insert_ne by done.
  apply map_lookup_filter_Some. split; [|exact Hapart].
  by rewrite lookup_insert_eq.
Qed.

End RegistryIndex.

(** C10 at an item whose file is a bare path: the record that replaces
    the file has the type of the item and no path, and the path of the
    file is nowhere in the document written. *)
Theorem bare_path_index_json :
  file_path (VStr "ui/bare.vue") = Ok (VStr "ui/bare.vue")
  /\ index_json_items [Sample.bare]
     = Ok [JS.set Sample.bare "files"
             (VArr [VObj [("path", VUndef); ("type", VStr "registry:ui")]])]
  /\ JS.stringify "  " (VObj [("path", VUndef); ("type", VStr "registry:ui")])
     = JS.stringify "  " (VObj [("type", VStr "registry:ui")])
  /\ match files (snd (buildRegistry Sample.cwd [Sample.bare] Sample.disk))
             !! "/app/public/r/index.json" with
     | Some text => Str.contains "ui/bare.vue" text = false
     | None => False
     end.
Proof. vm_compute. repeat split. Qed.

(** The same registry with the file given as a record: the document
    carries the path. *)
Example record_path_index_json :
  match files (snd (buildRegistry Sample.cwd [Sample.button] Sample.disk))
          !! "/app/public/r/index.json" with
  | Some text => Str.contains "ui/button.vue" text = true
  | None => False
  end.
Proof. vm_compute. reflexivity. Qed.

(** With the file given as a record the component is imported from the
    path of the file. *)
Example record_path_index_module :
  match index_module Sample.cwd [Sample.button] with
  | Ok text =>
      Str.contains "@/components/content/inspira/ui/button.vue" text = true
      /\ Str.contains "undefined)" text = false
  | _ => False
  end.
Proof. vm_compute. repeat split. Qed.

(* ====================================================================== *)
(** * Further properties of the script *)
(* ====================================================================== *)

(** ** The generated modules *)

Section Modules.
Import Str.

Variable cwd : string.

Lemma contains_app_r (needle a s : string) :
  contains needle s = true -> contains needle (a +:+ s) = true.
Proof.
  intros H. induction a as [|c a IH]; [exact H|].
  rewrite app_cons, contains_unfold. cbv iota. rewrite IH. apply orb_true_r.
Qed.

Lemma contains_prefix3 (n1 n2 n3 b : string) :
  contains (n1 +:+ n2 +:+ n3) (n1 +:+ n2 +:+ n3 +:+ b) = true.
Proof. apply (contains_app3 n1 n2 n3 EmptyString b). Qed.

Lemma strip_prefix_app_l (p s t r : string) :
  strip_prefix p s = Some r -> strip_prefix p (s +:+ t) = Some (r +:+ t).
Proof.
  revert s. induction p as [|a p IH]; intros s H; simpl in H.
  - inversion H. reflexivity.
  - destruct s as [|b s]; [discriminate H|]. rewrite app_cons. simpl.
    destruct (Ascii.eqb a b); [by apply IH | discriminate H].
Qed.

Lemma starts_with_app_l (p s t : string) :
  starts_with p s = true -> starts_with p (s +:+ t) = true.
Proof.
  unfold starts_with. destruct (strip_prefix p s) as [r|] eqn:E; [|discriminate].
  by rewrite (strip_prefix_app_l p s t r E).
Qed.

Lemma contains_app_l (needle a b : string) :
  contains needle a = true -> contains needle (a +:+ b) = true.
Proof.
  induction a as [|c a IH]; intros H; rewrite contains_unfold in H.
  - apply orb_true_iff in H as [H | H]; [|discriminate H].
    rewrite contains_unfold. apply orb_true_iff. left. by apply starts_with_app_l.
  - cbv iota in H. rewrite contains_unfold.
    apply orb_true_iff in H as [H | H]; apply orb_true_iff.
    + left. by apply starts_with_app_l.
    + right. rewrite app_cons. auto.
Qed.

Lemma app_empty_r (s : string) : s +:+ EmptyString = s.
Proof. induction s as [|c s IH]; [done|]. rewrite app_cons. by rewrite IH. Qed.

(** The loop appends the entries in the order of the registry, and
    stops at the first item whose entry throws. *)
Lemma index_loop_texts (entry : value -> outcome (option string)) (items : list value)
  (index : string) :
  index_loop entry index items
  = obind (omapM entry items) (fun es => Ok (index +:+ texts es)).
Proof.
  revert index. induction items as [|item items IH]; intros index.
  - cbn [index_loop omapM obind texts]. by rewrite app_empty_r.
  - cbn [index_loop omapM]. destruct (entry item) as [[text|]| |]; cbn [obind]; try done.
    + rewrite IH. destruct (omapM entry items); cbn [obind texts]; try done.
      by rewrite app_assoc.
    + rewrite IH. by destruct (omapM entry items).
Qed.

(** X1.  Both generated modules are their header, then the entries of the
    items in the order of the registry (an item that is passed over
    contributes nothing), then the closing brace; and rendering stops
    with the exception of the first item whose entry throws. *)
Theorem modules_are_header_entries_footer (data : list value) :
  index_module cwd data
  = obind (omapM (index_entry cwd) data)
      (fun es => Ok (INDEX_HEADER +:+ texts es +:+ INDEX_FOOTER))
  /\ block_module cwd data
     = obind (omapM (block_entry cwd) data)
         (fun es => Ok (BLOCK_HEADER +:+ texts es +:+ INDEX_FOOTER)).
Proof.
  unfold index_module, block_module. rewrite !index_loop_texts. split.
  - by destruct (omapM (index_entry cwd) data).
  - by destruct (omapM (block_entry cwd) data).
Qed.

(** X2.  The block module lists blocks only: an item whose type is not
    [registry:block] is passed over, whatever its files, and the module
    is the one generated without it. *)
Theorem block_module_lists_blocks_only (item ty : value) (before after : list value) :
  JS.get item "type" = Ok ty ->
  is_block ty = false ->
  block_entry cwd item = Ok None
  /\ block_module cwd (before ++ item :: after)%list
     = block_module cwd (before ++ after)%list.
Proof.
  intros Hty Hblock.
  assert (block_entry cwd item = Ok None) as Hskip.
  { unfold block_entry. rewrite Hty. cbn [obind]. by rewrite Hblock. }
  split; [exact Hskip|]. unfold block_module.
  by rewrite (index_loop_skip _ item before after).
Qed.

(** X3.  An item without [registryDependencies] is rendered with the
    literal [undefined] for them, not with [null] and not with an empty
    list. *)
Theorem absent_dependencies_render_undefined (item : value) (text : string) :
  JS.get item "registryDependencies" = Ok VUndef ->
  index_entry cwd item = Ok (Some text) ->
  contains "    registryDependencies: undefined," text = true.
Proof.
  intros Hdeps H. unfold index_entry in H.
  destruct (JS.get item "files") as [fs| |]; cbn [obind] in H; try discriminate H.
  destruct (optional_array fs) as [[l|]| |]; cbn [obind] in H; try discriminate H.
  destruct (omapM resolveFile l); cbn [obind] in H; try discriminate H.
  destruct (componentPath item l); cbn [obind] in H; try discriminate H.
  destruct (omapM (index_file cwd) l) as [rendered| |]; cbn [obind] in H;
    try discriminate H.
  destruct (entry_head item rendered) as [head| |] eqn:Ehead; cbn [obind] in H;
    try discriminate H.
  destruct (entry_tail item); cbn [obind] in H; try discriminate H.
  inversion H. apply contains_app_l.
  unfold entry_head in Ehead.
  destruct (JS.get item "name"); cbn [obind] in Ehead; try discriminate Ehead.
  destruct (JS.get item "description"); cbn [obind] in Ehead; try discriminate Ehead.
  destruct (JS.get item "type"); cbn [obind] in Ehead; try discriminate Ehead.
  rewrite Hdeps in Ehead. cbn [obind] in Ehead. inversion Ehead.
  change "    registryDependencies: undefined,"
    with ("    registryDependencies: " +:+ "undefined" +:+ ",").
  change (JS.to_string (JS.stringify EmptyString VUndef)) with "undefined".
  repeat first [ apply contains_prefix3 | apply contains_app_r ].
Qed.

Lemma split_on_without (c : ascii) (s : string) :
  without_char c s -> split_on c s = [s].
Proof.
  unfold without_char. induction s as [|x s IH]; intros H; [reflexivity|].
  cbn [all_chars] in H. apply andb_true_iff in H as [Hx Hs].
  cbn [split_on]. apply negb_true_iff in Hx. rewrite Hx. by rewrite (IH Hs).
Qed.

Lemma split_on_first (c : ascii) (a b : string) :
  without_char c a -> split_on c (a +:+ String c b) = a :: split_on c b.
Proof.
  unfold without_char. induction a as [|x a IH]; intros H.
  - rewrite app_empty. cbn [split_on]. by rewrite Ascii.eqb_refl.
  - cbn [all_chars] in H. apply andb_true_iff in H as [Hx Ha].
    apply negb_true_iff in Hx. rewrite app_cons. cbn [split_on].
    by rewrite Hx, (IH Ha).
Qed.

(** X4.  An item with an empty list of files and a type [registry:t] is
    imported from the conventional path [t/name] under the content
    root. *)
Theorem empty_files_conventional_path (item : value) (t name : string) :
  JS.get item "type" = Ok (VStr ("registry:" +:+ t)) ->
  JS.get item "name" = Ok (VStr name) ->
  without_char ":"%char t ->
  componentPath item [] = Ok ("@/components/content/inspira/" +:+ t +:+ "/" +:+ name).
Proof.
  intros Hty Hname Ht. unfold componentPath. rewrite Hty, Hname.
  cbn [obind type_suffix].
  change ("registry:" +:+ t) with ("registry" +:+ String ":"%char t).
  rewrite (split_on_first ":"%char "registry" t eq_refl).
  by rewrite (split_on_without ":"%char t Ht).
Qed.

End Modules.

(** ** The run as a whole *)

Lemma silent_ret {A} (a : A) : silent (ret a).
Proof. by intros w. Qed.

Lemma silent_lift {A} (o : outcome A) : silent (lift o).
Proof. by intros w. Qed.

Lemma silent_bind {A B} (m : M A) (k : A -> M B) :
  silent m -> (forall a, silent (k a)) -> silent (bind m k).
Proof.
  intros Hm Hk w. unfold bind. specialize (Hm w).
  destruct (m w) as [[a|e|c] w']; simpl in *; auto.
  by rewrite (Hk a w').
Qed.

Lemma silent_try {A} (m : M A) (h : error -> M A) :
  silent m -> (forall e, silent (h e)) -> silent (try_catch m h).
Proof.
  intros Hm Hh w. unfold try_catch. specialize (Hm w).
  destruct (m w) as [[a|e|c] w']; simpl in *; auto.
  by rewrite (Hh e w').
Qed.

Lemma silent_forM {A} (l : list A) (body : A -> M unit) :
  (forall a, silent (body a)) -> silent (forM l body).
Proof.
  intros Hb. induction l as [|a l IH]; simpl.
  - apply silent_ret.
  - apply silent_bind; auto.
Qed.

Lemma silent_mapM {A B} (f : A -> M B) (l : list A) :
  (forall a, silent (f a)) -> silent (mapM f l).
Proof.
  intros Hf. induction l as [|a l IH]; simpl.
  - apply silent_ret.
  - apply silent_bind; [auto|]. intros b.
    apply silent_bind; [auto|]. intros bs. apply silent_ret.
Qed.

Lemma silent_existsSync p : silent (Fs.existsSync p).
Proof. by intros w. Qed.

Lemma silent_mkdir p : silent (Fs.mkdir p).
Proof. by intros w. Qed.

Lemma silent_rimraf p : silent (Fs.rimraf p).
Proof. by intros w. Qed.

Lemma silent_readFile p : silent (Fs.readFile p).
Proof. intros w. unfold Fs.readFile. by destruct (files w !! p). Qed.

Lemma silent_fs_writeFile p text : silent (Fs.writeFile p text).
Proof. by intros w. Qed.

Lemma silent_error e : silent (Console.error e).
Proof. by intros w. Qed.

Lemma silent_exit {A} c : silent (@process_exit A c).
Proof. by intros w. Qed.

Create HintDb silence.
#[local] Hint Resolve silent_ret silent_lift silent_existsSync silent_mkdir
  silent_rimraf silent_readFile silent_fs_writeFile silent_error : silence.

(** Splits a sequence of binds and closes the steps that print nothing. *)
Ltac silent_steps :=
  repeat first
    [ progress eauto with silence
    | apply silent_exit
    | apply silent_bind; [|intros ?]
    | apply silent_try; [|intros ?]
    | apply silent_forM; intros ?
    | apply silent_mapM; intros ?
    | match goal with
      | |- silent (match ?x with _ => _ end) => destruct x
      | |- silent (if ?b then _ else _) => destruct b
      end ].

Section WholeRun.
Import Str.

Variable cwd : string.
Variable registry : list value.
Variable crawlContent : gmap string string -> outcome (list value).
Variable registrySchema_safeParse : list value -> parsed (list value).
Variable registryEntrySchema_omit_safeParse : value -> parsed value.
Variable colors : list (string * value).
Variable colorMapping : list (string * value).
Variable baseColors : list value.

Lemma silent_buildRegistry data : silent (buildRegistry cwd data).
Proof. unfold buildRegistry, writeFile. silent_steps. Qed.

Lemma silent_buildBlockRegistry data : silent (buildBlockRegistry cwd data).
Proof. unfold buildBlockRegistry, writeFile. silent_steps. Qed.

Lemma silent_buildStyles data :
  silent (buildStyles cwd registryEntrySchema_omit_safeParse data).
Proof.
  unfold buildStyles, style_item, style_files, read_files, start_file, ensure_dir,
    writeFile.
  silent_steps; unfold finish_file; silent_steps.
Qed.

Lemma silent_buildThemes : silent (buildThemes cwd colors colorMapping baseColors).
Proof.
  unfold buildThemes, write_base, write_theme, ensure_dir, writeFile. silent_steps.
Qed.

Lemma marked_bind {A B} (m : M A) (k : A -> M B) (w : World) :
  silent m -> (forall a w1, marked w1 (k a w1)) -> marked w (bind m k w).
Proof.
  intros Hm Hk. unfold bind. specialize (Hm w).
  destruct (m w) as [[a|e|c] w1]; cbn in Hm; [|exact Hm|exact Hm].
  specialize (Hk a w1). unfold marked in *.
  destruct (k a w1) as [[b|e|c] w2]; by rewrite Hk, Hm.
Qed.

Lemma silent_ensure_dir p : silent (ensure_dir p).
Proof. unfold ensure_dir. silent_steps. Qed.

Lemma marked_pipeline (w : World) :
  marked w (pipeline cwd registry crawlContent registrySchema_safeParse
              registryEntrySchema_omit_safeParse colors colorMapping baseColors w).
Proof.
  unfold pipeline.
  apply marked_bind; [apply silent_ensure_dir|]. intros _ w1.
  apply marked_bind; [apply silent_ensure_dir|]. intros _ w2.
  apply marked_bind; [by intros w0|]. intros content w3.
  destruct (registrySchema_safeParse (registry ++ content)) as [data|err].
  - apply marked_bind; [apply silent_buildRegistry|]. intros _ w4.
    apply marked_bind; [apply silent_buildBlockRegistry|]. intros _ w5.
    apply marked_bind; [apply silent_buildStyles|]. intros _ w6.
    apply marked_bind; [apply silent_buildThemes|]. intros _ w7.
    reflexivity.
  - apply marked_bind; [apply silent_error|]. intros _ w4. reflexivity.
Qed.

(** X5.  The success marker is printed exactly when the module body runs
    to its end, and it is the only line the script prints: when the
    script ends through [process.exit] nothing has been printed, and no
    exception escapes the top level. *)
Theorem done_is_printed_on_success_only (w : World) :
  match main cwd registry crawlContent registrySchema_safeParse
          registryEntrySchema_omit_safeParse colors colorMapping baseColors w with
  | (Ok _, w') => stdout w' = (stdout w ++ ["✅ Done!"])%list
  | (Exit _, w') => stdout w' = stdout w
  | (Throw _, _) => False
  end.
Proof.
  pose proof (marked_pipeline w) as H. unfold marked in H.
  unfold main, try_catch.
  destruct (pipeline _ _ _ _ _ _ _ _ w) as [[[]|e|c] w']; exact H.
Qed.

(** X6.  When an item of the validated registry cannot be rendered into
    the index module or into the registry index document, the exception
    is logged, the process exits with code 1 and no file has been
    written: both documents of [buildRegistry] are rendered in full before
    the first one is written. *)
Theorem failed_rendering_writes_nothing (w : World) (content data : list value)
  (e : error) :
  crawlContent (files w) = Ok content ->
  registrySchema_safeParse (registry ++ content) = ParseOk data ->
  index_module cwd data = Throw e
  \/ (exists index, index_module cwd data = Ok index) /\ index_json_items data = Throw e ->
  let r := run cwd registry crawlContent registrySchema_safeParse
             registryEntrySchema_omit_safeParse colors colorMapping baseColors w in
  fst r = 1%Z /\ files (snd r) = files w
  /\ stderr (snd r) = (stderr w ++ [e])%list /\ stdout (snd r) = stdout w.
Proof.
  intros Hcrawl Hparse Hthrow.
  unfold run, main, try_catch, pipeline, bind, crawl.
  destruct (ensure_dir_spec (NodePath.join_paths [cwd; "__registry__"]) w)
    as (w1 & E1 & Hf1 & He1 & Ho1).
  destruct (ensure_dir_spec (REGISTRY_PATH cwd) w1) as (w2 & E2 & Hf2 & He2 & Ho2).
  rewrite E1, E2. cbv beta iota. rewrite Hf2, Hf1, Hcrawl, Hparse.
  unfold buildRegistry, bind, lift.
  destruct Hthrow as [-> | [[index ->] ->]]; cbn;
    rewrite Hf2, Hf1, He2, He1, Ho2, Ho1; auto.
Qed.

Lemma ensure_dir_exists (p : string) (w : World) :
  exists_in (snd (ensure_dir p w)) p
  /\ files (snd (ensure_dir p w)) = files w
  /\ dirs w ⊆ dirs (snd (ensure_dir p w))
  /\ fst (ensure_dir p w) = Ok tt
  /\ stderr (snd (ensure_dir p w)) = stderr w.
Proof.
  unfold ensure_dir, bind, Fs.existsSync, exists_in.
  destruct (bool_decide (p ∈ dirs w)) eqn:Ed; cbn.
  - apply bool_decide_eq_true in Ed. auto.
  - destruct (bool_decide (is_Some (files w !! p))) eqn:Ef; cbn.
    + apply bool_decide_eq_true in Ef. auto.
    + repeat split; [left|]; set_solver.
Qed.

(** X7.  The two output directories are there after a run that fails
    validation: they are created, when missing, before the registry is
    validated. *)
Theorem directories_precede_validation (w : World) (content : list value) (err : error) :
  crawlContent (files w) = Ok content ->
  registrySchema_safeParse (registry ++ content) = ParseFail err ->
  let w' := snd (run cwd registry crawlContent registrySchema_safeParse
                   registryEntrySchema_omit_safeParse colors colorMapping baseColors w) in
  exists_in w' (NodePath.join_paths [cwd; "__registry__"])
  /\ exists_in w' (REGISTRY_PATH cwd).
Proof.
  intros Hcrawl Hparse.
  unfold run, main, try_catch, pipeline, bind, crawl.
  pose proof (ensure_dir_exists (NodePath.join_paths [cwd; "__registry__"]) w)
    as (X1 & Hf1 & Hd1 & Hr1 & _).
  destruct (ensure_dir (NodePath.join_paths [cwd; "__registry__"]) w) as [o1 w1].
  cbn in X1, Hf1, Hd1, Hr1. subst o1.
  pose proof (ensure_dir_exists (REGISTRY_PATH cwd) w1) as (X2 & Hf2 & Hd2 & Hr2 & _).
  destruct (ensure_dir (REGISTRY_PATH cwd) w1) as [o2 w2].
  cbn in X2, Hf2, Hd2, Hr2. subst o2. cbv beta iota.
  rewrite Hf2, Hf1, Hcrawl, Hparse. cbn. unfold exists_in in *. cbn.
  split; [|exact X2].
  destruct X1 as [X1 | X1]; [left; by apply Hd2 | right; by rewrite Hf2].
Qed.

End WholeRun.

(** ** What the builders leave in their directories *)

Section Directories.
Import Str.

Variable cwd : string.
Variable registryEntrySchema_omit_safeParse : value -> parsed value.
Variable colors : list (string * value).
Variable colorMapping : list (string * value).
Variable baseColors : list value.

(** X8.  [buildThemes] starts from an empty colours directory: whatever
    was under [public/r/colors] before, every file found there after it
    ends with a carriage return and a line feed, as the files it writes
    do. *)
Theorem colors_directory_is_rebuilt (w : World) (p text : string) :
  Fs.is_under (colors_path cwd) p = true ->
  files (snd (buildThemes cwd colors colorMapping baseColors w)) !! p = Some text ->
  ends_with_crlf text.
Proof.
  intros Hunder Hfile. unfold buildThemes in Hfile. unfold bind at 1 in Hfile.
  cbn [Fs.rimraf] in Hfile.
  match type of Hfile with
  | files (snd (?rest ?wr)) !! _ = _ =>
      assert (writes_crlf rest) as Hrest
        by (unfold write_base, write_theme; crlf_steps);
      destruct (Hrest wr wr (kept_or_crlf_refl wr) p text Hfile) as [Hold | Hnew]
  end.
  - cbn in Hold. apply map_lookup_filter_Some in Hold as [_ Hout]. cbn in Hout.
    congruence.
  - exact Hnew.
Qed.

Lemma kept_or_styled_refl data w : kept_or_styled cwd data w w.
Proof. intros p text H. by left. Qed.

Lemma style_item_styled (data : list value) (item : value) (w0 w : World) :
  In item data ->
  kept_or_styled cwd data w0 w ->
  kept_or_styled cwd data w0
    (snd (style_item cwd registryEntrySchema_omit_safeParse item w)).
Proof.
  intros Hin Hinv. unfold style_item, bind at 1, lift at 1.
  destruct (JS.get item "type") as [ty| |] eqn:Ety; [|exact Hinv|exact Hinv].
  destruct (includes REGISTRY_INDEX_WHITELIST ty) eqn:Ewl; cbn [negb]; [|exact Hinv].
  unfold bind at 1, lift at 1.
  destruct (JS.get item "files") as [fs| |]; [|exact Hinv|exact Hinv].
  unfold bind at 1. pose proof (reads_only_style_files cwd fs w) as (Hfiles & _).
  destruct (style_files cwd fs w) as [[contents|e|c] w1]; cbn [snd] in Hfiles.
  2,3: (intros p text H; cbn in H; rewrite Hfiles in H; by apply Hinv).
  destruct (registryEntrySchema_omit_safeParse _) as [data'|err].
  2: (intros p text H; cbn in H; rewrite Hfiles in H; by apply Hinv).
  unfold bind, lift. destruct (JS.get item "name") as [name| |] eqn:Ename.
  2,3: (intros p text H; cbn in H; rewrite Hfiles in H; by apply Hinv).
  intros p text H. cbn in H.
  destruct (decide (style_document cwd name = p)) as [Heq | Hne].
  - right. exists item, name, ty. repeat split; auto.
  - unfold style_document, styles_path in Hne.
    rewrite lookup_insert_ne in H by done. rewrite Hfiles in H. by apply Hinv.
Qed.

Lemma style_loop_styled (data items : list value) (w0 w : World) :
  (forall item, In item items -> In item data) ->
  kept_or_styled cwd data w0 w ->
  kept_or_styled cwd data w0
    (snd (forM items (style_item cwd registryEntrySchema_omit_safeParse) w)).
Proof.
  revert w. induction items as [|item items IH]; intros w Hsub Hinv; [exact Hinv|].
  cbn [forM]. unfold bind.
  pose proof (style_item_styled data item w0 w (Hsub item (or_introl eq_refl)) Hinv)
    as Hstep.
  destruct (style_item cwd registryEntrySchema_omit_safeParse item w)
    as [[[]|e|c] w1]; cbn [snd] in Hstep; [|exact Hstep|exact Hstep].
  apply IH; [|exact Hstep]. intros i Hi. apply Hsub. by right.
Qed.

(** X9.  [buildStyles] writes style documents only: a file found after
    it either is the file that was there before, or is the document
    [styles/<name>.json] of an item of the registry whose type is on the
    whitelist. *)
Theorem styles_are_named_after_items (data : list value) (w : World) (p text : string) :
  files (snd (buildStyles cwd registryEntrySchema_omit_safeParse data w)) !! p
  = Some text ->
  files w !! p = Some text \/ style_document_of cwd data p.
Proof.
  intros H. unfold buildStyles, bind in H.
  destruct (ensure_dir_spec (styles_path cwd) w) as (w1 & E1 & Hf1 & _).
  rewrite E1 in H.
  assert (kept_or_styled cwd data w w1) as Hinv.
  { intros q t Hq. left. by rewrite <- Hf1. }
  exact (style_loop_styled data data w w1 (fun _ Hin => Hin) Hinv p text H).
Qed.

(** *** File references that cannot be read at all *)

Lemma file_record_never_exits (f : value) (c : Z) : file_record f <> Exit c.
Proof.
  unfold file_record. destruct f; cbn; try discriminate.
  all: destruct (default VUndef _); discriminate.
Qed.

Lemma start_file_result (f : value) (w : World) :
  exists s w1,
    start_file cwd f w = (Ok s, w1) /\ files w1 = files w
    /\ forall e, file_record f = Throw e -> s = Rejected e.
Proof.
  unfold start_file. destruct (file_record f) as [file|e|c] eqn:E.
  - destruct (read_path cwd file).
    + eexists _, _. split; [reflexivity|]. split; [done | discriminate].
    + eexists _, _. split; [reflexivity|]. split; [done | discriminate].
  - eexists _, _. split; [reflexivity|]. split; [done|]. intros e' He'. congruence.
  - by destruct (file_record_never_exits f c).
Qed.

Lemma start_files_result (l : list value) (w : World) :
  exists ss w1,
    mapM (start_file cwd) l w = (Ok ss, w1) /\ files w1 = files w
    /\ forall f, In f l -> (exists e, file_record f = Throw e) ->
                 exists e, first_rejection ss = Some e.
Proof.
  revert w. induction l as [|f l IH]; intros w.
  - exists [], w. split; [reflexivity|]. split; [done|]. intros f [].
  - destruct (start_file_result f w) as (s & w1 & Es & Hf1 & Hrej).
    destruct (IH w1) as (ss & w2 & Ess & Hf2 & Hrejs).
    exists (s :: ss), w2. cbn [mapM]. unfold bind. rewrite Es, Ess.
    split; [reflexivity|]. split; [congruence|].
    intros g [-> | Hin] Hg.
    + destruct Hg as [e He]. rewrite (Hrej e He). by exists e.
    + destruct (Hrejs g Hin Hg) as [e He]. destruct s; cbn; eauto.
Qed.

(** X10.  A file reference that is [undefined] or [null] makes the
    reading of the files of its item throw, whatever the other files
    are, and no file is changed: no slot is left for it. *)
Theorem nullish_file_aborts_the_item (l : list value) (f : value) (w : World) :
  In f l -> f = VUndef \/ f = VNull ->
  exists e w', style_files cwd (VArr l) w = (Throw e, w') /\ files w' = files w.
Proof.
  intros Hin Hnull. unfold style_files, read_files. cbn [JS.truthy]. unfold bind.
  destruct (start_files_result l w) as (ss & w1 & -> & Hf & Hrej).
  destruct (Hrej f Hin) as [e ->].
  - destruct Hnull as [-> | ->]; eexists; reflexivity.
  - by exists e, w1.
Qed.




(** X12.  When the files of an item have been read, the array handed to
    validation has one slot for every file reference of the item, in
    order: a failed read leaves its slot in place. *)
Theorem files_array_keeps_its_length (l : list value) (contents : value) (w w' : World) :
  style_files cwd (VArr l) w = (Ok contents, w') ->
  exists slots, contents = VArr slots /\ length slots = length l.
Proof.
  unfold style_files. cbn [JS.truthy]. unfold bind. intros H.
  destruct (read_files cwd l w) as [[slots|e|c] w1] eqn:E; try discriminate H.
  inversion H; subst. exists slots. split; [done|].
  exact (read_files_length cwd l w slots w' E).
Qed.

End Directories.

(** ** The colour patterns and the resolution of tokens *)

Section Patterns.
Import Str.

Lemma strip_prefix_Some (p s r : string) :
  strip_prefix p s = Some r -> s = p +:+ r.
Proof.
  revert s. induction p as [|a p IH]; intros s H; simpl in H.
  - by inversion H.
  - destruct s as [|b s]; [discriminate H|].
    destruct (Ascii.eqb a b) eqn:E; [|discriminate H].
    apply Ascii.eqb_eq in E. subst b. rewrite app_cons. f_equal. by apply IH.
Qed.

Lemma span_spec (p : ascii -> bool) (s a b : string) :
  span p s = (a, b) -> s = a +:+ b /\ all_chars p a = true.
Proof.
  revert a b. induction s as [|c s IH]; intros a b H; simpl in H.
  - by inversion H.
  - destruct (p c) eqn:Ec.
    + destruct (span p s) as [a' b'] eqn:Es. inversion H; subst.
      destruct (IH a' b eq_refl) as [-> Ha]. split; [done|].
      cbn [all_chars]. by rewrite Ec, Ha.
    + by inversion H.
Qed.

Lemma group_then_Some (p : ascii -> bool) (lit s g rest : string) :
  Pattern.group_then p lit s = Some (g, rest) ->
  s = g +:+ lit +:+ rest /\ g <> EmptyString /\ all_chars p g = true.
Proof.
  unfold Pattern.group_then. destruct (span p s) as [a b] eqn:Es.
  apply span_spec in Es as [-> Ha]. intros H.
  destruct a as [|c a]; [discriminate H|].
  destruct (strip_prefix lit b) as [r|] eqn:Eb; [|discriminate H].
  apply strip_prefix_Some in Eb. inversion H; subst. by repeat split.
Qed.

Lemma match_rgb_Some (s r g b : string) :
  Pattern.match_rgb s = Some (r, g, b) ->
  s = "rgb(" +:+ r +:+ "," +:+ g +:+ "," +:+ b +:+ ")"
  /\ digits r /\ digits g /\ digits b.
Proof.
  unfold Pattern.match_rgb, digits. intros H.
  destruct (strip_prefix "rgb(" s) as [s1|] eqn:E0; [|discriminate H].
  apply strip_prefix_Some in E0.
  destruct (Pattern.group_then is_digit "," s1) as [[g1 s2]|] eqn:E1; [|discriminate H].
  apply group_then_Some in E1 as (-> & N1 & A1).
  destruct (Pattern.group_then is_digit "," s2) as [[g2 s3]|] eqn:E2; [|discriminate H].
  apply group_then_Some in E2 as (-> & N2 & A2).
  destruct (Pattern.group_then is_digit ")" s3) as [[g3 s4]|] eqn:E3; [|discriminate H].
  apply group_then_Some in E3 as (-> & N3 & A3).
  destruct s4; [|discriminate H]. inversion H; subst. auto 10.
Qed.

Lemma match_hsl_Some (s h s2 l2 : string) :
  Pattern.match_hsl s = Some (h, s2, l2) ->
  exists sat light,
    s2 = sat +:+ "%" /\ l2 = light +:+ "%"
    /\ s = "hsl(" +:+ h +:+ "," +:+ sat +:+ "%," +:+ light +:+ "%)"
    /\ digits_or_dots h /\ digits_or_dots sat /\ digits_or_dots light.
Proof.
  unfold Pattern.match_hsl, digits_or_dots. intros H.
  destruct (strip_prefix "hsl(" s) as [s1|] eqn:E0; [|discriminate H].
  apply strip_prefix_Some in E0.
  destruct (Pattern.group_then is_digit_or_dot "," s1) as [[g1 t2]|] eqn:E1;
    [|discriminate H].
  apply group_then_Some in E1 as (-> & N1 & A1).
  destruct (Pattern.group_then is_digit_or_dot "%," t2) as [[g2 t3]|] eqn:E2;
    [|discriminate H].
  apply group_then_Some in E2 as (-> & N2 & A2).
  destruct (Pattern.group_then is_digit_or_dot "%)" t3) as [[g3 t4]|] eqn:E3;
    [|discriminate H].
  apply group_then_Some in E3 as (-> & N3 & A3).
  destruct t4; [|discriminate H]. inversion H; subst. exists g2, g3. auto 10.
Qed.

(** X13.  The two patterns match the exact forms and nothing else: the
    RGB pattern matches a string if and only if it is [rgb(r,g,b)] with
    three runs of digits, without any space, and the HSL pattern if and
    only if it is [hsl(h,s%,l%)] with three runs of digits and dots. *)
Theorem patterns_match_exact_forms (s r g b h sat light : string) :
  (Pattern.match_rgb s = Some (r, g, b)
   <-> s = "rgb(" +:+ r +:+ "," +:+ g +:+ "," +:+ b +:+ ")"
       /\ digits r /\ digits g /\ digits b)
  /\ (Pattern.match_hsl s = Some (h, sat +:+ "%", light +:+ "%")
      <-> s = "hsl(" +:+ h +:+ "," +:+ sat +:+ "%," +:+ light +:+ "%)"
          /\ digits_or_dots h /\ digits_or_dots sat /\ digits_or_dots light).
Proof.
  split; split.
  - apply match_rgb_Some.
  - intros (-> & Hr & Hg & Hb). by apply match_rgb_triple.
  - intros H. apply match_hsl_Some in H
      as (sat' & light' & Hs & Hl & -> & Hh & Hsat & Hlight).
    assert (sat' = sat) as ->.
    { clear -Hs. revert sat' Hs. induction sat as [|c sat IH]; intros [|c' sat'] Hs.
      - done.
      - rewrite app_cons in Hs. inversion Hs as [[Hc Hrest]].
        destruct sat'; discriminate Hrest.
      - rewrite app_cons in Hs. inversion Hs as [[Hc Hrest]].
        destruct sat; discriminate Hrest.
      - rewrite !app_cons in Hs. inversion Hs. f_equal. by apply IH. }
    assert (light' = light) as ->.
    { clear -Hl. revert light' Hl.
      induction light as [|c light IH]; intros [|c' light'] Hl.
      - done.
      - rewrite app_cons in Hl. inversion Hl as [[Hc Hrest]].
        destruct light'; discriminate Hrest.
      - rewrite app_cons in Hl. inversion Hl as [[Hc Hrest]].
        destruct light; discriminate Hrest.
      - rewrite !app_cons in Hl. inversion Hl. f_equal. by apply IH. }
    auto.
  - intros (-> & Hh & Hs & Hl). by apply match_hsl_triple.
Qed.

Lemma digit_is_not_r (c : ascii) : is_digit c = true -> Ascii.eqb "r" c = false.
Proof.
  intros H. destruct (Ascii.eqb "r" c) eqn:E; [|done].
  apply Ascii.eqb_eq in E. subst c. discriminate H.
Qed.

Lemma digit_or_dot_is_not_h (c : ascii) :
  is_digit_or_dot c = true -> Ascii.eqb "h" c = false.
Proof.
  intros H. destruct (Ascii.eqb "h" c) eqn:E; [|done].
  apply Ascii.eqb_eq in E. subst c. discriminate H.
Qed.

(** X14.  The channel computations are idempotent: a channel string is
    never itself of the form the pattern converts, so that computing the
    channel of a channel string leaves it as it is. *)
Theorem channels_are_idempotent (s : string) :
  obind (Pattern.rgbChannel (VStr s)) Pattern.rgbChannel = Pattern.rgbChannel (VStr s)
  /\ obind (Pattern.hslChannel (VStr s)) Pattern.hslChannel
     = Pattern.hslChannel (VStr s).
Proof.
  unfold Pattern.rgbChannel, Pattern.hslChannel, Pattern.replace_on,
    Pattern.replace_groups. cbn [obind]. split.
  - destruct (Pattern.match_rgb s) as [[[r g] b]|] eqn:E.
    + apply match_rgb_Some in E as (_ & [Hne Hr] & _).
      destruct r as [|c r]; [done|]. cbn [all_chars] in Hr.
      apply andb_true_iff in Hr as [Hc _].
      unfold Pattern.match_rgb. rewrite app_cons. cbn [strip_prefix].
      by rewrite (digit_is_not_r c Hc).
    + by rewrite E.
  - destruct (Pattern.match_hsl s) as [[[h sat] light]|] eqn:E.
    + apply match_hsl_Some in E as (_ & _ & _ & _ & _ & [Hne Hh] & _).
      destruct h as [|c h]; [done|]. cbn [all_chars] in Hh.
      apply andb_true_iff in Hh as [Hc _].
      unfold Pattern.match_hsl. rewrite app_cons. cbn [strip_prefix].
      by rewrite (digit_or_dot_is_not_h c Hc).
    + by rewrite E.
Qed.

(** X15.  The shade a scale selects is the first shade of the family
    whose [scale] is that number; when no shade has it, and when the scale
    is not a number at all, the result is [undefined]. *)
Theorem find_scale_selects_by_scale (n : option Z) (shades : list value) (item : value) :
  find_scale n shades = Ok item ->
  match n with
  | None => item = VUndef
  | Some k =>
      (item = VUndef /\ Forall (fun x => JS.get x "scale" <> Ok (VNum k)) shades)
      \/ exists before after,
           shades = (before ++ item :: after)%list
           /\ JS.get item "scale" = Ok (VNum k)
           /\ Forall (fun x => JS.get x "scale" <> Ok (VNum k)) before
  end.
Proof.
  revert item. induction shades as [|x shades IH]; intros item H; cbn [find_scale] in H.
  - inversion H. destruct n; [left|]; auto.
  - destruct (JS.get x "scale") as [sc| |] eqn:Esc; cbn [obind] in H; try discriminate H.
    destruct n as [k|].
    + assert (Hcases : (sc = VNum k /\ item = x)
                       \/ (sc <> VNum k /\ find_scale (Some k) shades = Ok item)).
      { destruct sc; try (right; split; [discriminate | exact H]).
        destruct (n =? k)%Z eqn:E.
        - apply Z.eqb_eq in E. subst. left. split; [done | by inversion H].
        - apply Z.eqb_neq in E. right. split; [congruence | exact H]. }
      destruct Hcases as [[-> ->] | [Hne Hrest]].
      * right. exists [], shades. by repeat split.
      * assert (JS.get x "scale" <> Ok (VNum k)) as Hx by (rewrite Esc; congruence).
        destruct (IH item Hrest) as [[-> Hall] | (before & after & -> & Hsc & Hall)].
        -- left. split; [done | by constructor].
        -- right. exists (x :: before), after. repeat split; [done | by constructor].
    + apply IH. by destruct sc.
Qed.

Lemma no_brace_no_placeholder (c : ascii) (r : string) :
  negb (Ascii.eqb c "{") = true -> starts_with "{{base}}-" (String c r) = false.
Proof.
  intros H. apply negb_true_iff in H. unfold starts_with. cbn [strip_prefix].
  rewrite Ascii.eqb_sym. by rewrite H.
Qed.

Lemma resolve_token_plain (baseColor s : string) :
  without_char "{"%char s -> resolve_token baseColor s = s.
Proof.
  unfold without_char, resolve_token, replace_all.
  induction s as [|c s IH]; intros H; [reflexivity|].
  cbn [all_chars] in H. apply andb_true_iff in H as [Hc Hs].
  cbn [replace_all_from]. rewrite (no_brace_no_placeholder c s Hc).
  by rewrite (IH Hs).
Qed.

(** X16.  Resolving a token for a family leaves a token without brace
    as it is, and turns [{{base}}-x] into [family-x]. *)
Theorem resolve_token_substitutes_family (baseColor x : string) :
  without_char "{"%char x ->
  resolve_token baseColor x = x
  /\ resolve_token baseColor ("{{base}}-" +:+ x) = baseColor +:+ "-" +:+ x.
Proof.
  intros Hx. split; [by apply resolve_token_plain|].
  pose proof (resolve_token_plain baseColor x Hx) as Hplain.
  unfold resolve_token, replace_all in *.
  change ("{{base}}-" +:+ x) with (String "{" ("{base}}-" +:+ x)).
  cbn [replace_all_from].
  change (starts_with "{{base}}-" (String "{" ("{base}}-" +:+ x)))
    with (starts_with "{{base}}-" ("{{base}}-" +:+ x)).
  rewrite starts_with_app.
  change (String.length "{{base}}-" - 1) with 8.
  change ("{base}}-" +:+ x)
    with (String "{" (String "b" (String "a" (String "s" (String "e"
            (String "}" (String "}" (String "-" x)))))))).
  cbn [replace_all_from]. rewrite Hplain. by rewrite app_assoc.
Qed.

End Patterns.

(** ** The two passes, each on its own *)

Section Passes.
Import Str.

Variable colorsData : list (string * value).
Variable baseColor : string.
Variable key : string.

Lemma base_step_other inline css k v inline' css' :
  base_step colorsData baseColor (inline, css) (k, v) = Ok (inline', css') ->
  k <> key ->
  JS.assoc key inline' = JS.assoc key inline /\ JS.assoc key css' = JS.assoc key css.
Proof.
  unfold base_step. intros H Hne.
  destruct v; try (inversion H; subst; by split).
  destruct (starts_with "chart-" k).
  - inversion H; subst. split; [done | by apply assoc_set_ne].
  - destruct (lookup_color colorsData _) as [color| |]; cbn [obind] in H;
      try discriminate H.
    destruct (JS.truthy color).
    + destruct (JS.get color "hslChannel"); cbn [obind] in H; try discriminate H.
      inversion H; subst. split; by apply assoc_set_ne.
    + inversion H; subst. split; [by apply assoc_set_ne | done].
Qed.

Lemma base_mode_other kvs acc acc' :
  base_mode colorsData baseColor acc kvs = Ok acc' ->
  ~ In key (map fst kvs) ->
  JS.assoc key (fst acc') = JS.assoc key (fst acc)
  /\ JS.assoc key (snd acc') = JS.assoc key (snd acc).
Proof.
  revert acc. induction kvs as [|[k v] kvs IH]; intros acc H Hkey; cbn [base_mode] in H.
  - by inversion H.
  - destruct (base_step colorsData baseColor acc (k, v)) as [[inline1 css1]| |] eqn:E;
      cbn [obind] in H; try discriminate H.
    destruct acc as [inline css].
    destruct (base_step_other _ _ _ _ _ _ E) as [H1 H2].
    { intros ->. apply Hkey. by left. }
    destruct (IH _ H) as [G1 G2]; [intros Hin; apply Hkey; by right|].
    cbn [fst snd] in *. split; congruence.
Qed.

Lemma base_mode_chart_inline kvs acc acc' :
  starts_with "chart-" key = true ->
  base_mode colorsData baseColor acc kvs = Ok acc' ->
  JS.assoc key (fst acc) = None -> JS.assoc key (fst acc') = None.
Proof.
  intros Hchart. revert acc.
  induction kvs as [|[k v] kvs IH]; intros acc H Hnone; cbn [base_mode] in H.
  - inversion H; subst. exact Hnone.
  - destruct (base_step colorsData baseColor acc (k, v)) as [[inline1 css1]| |] eqn:E;
      cbn [obind] in H; try discriminate H.
    apply (IH _ H). cbn [fst]. destruct acc as [inline css]. cbn [fst] in Hnone.
    destruct (decide (k = key)) as [-> | Hne].
    + unfold base_step in E. destruct v; try (inversion E; by subst).
      rewrite Hchart in E. inversion E. by subst.
    + destruct (base_step_other _ _ _ _ _ _ E Hne) as [H1 _]. congruence.
Qed.

(** X17.  The base-stylesheet pass does not resolve chart variables: a
    key that starts with [chart-] never enters [inlineColors], and its
    value goes to [cssVars] as it is written in the mapping. *)
Theorem chart_variables_are_copied (kvs inline css : list (string * value)) (v : string) :
  starts_with "chart-" key = true ->
  NoDup (map fst kvs) ->
  In (key, VStr v) kvs ->
  base_mode colorsData baseColor ([], []) kvs = Ok (inline, css) ->
  JS.assoc key inline = None /\ JS.assoc key css = Some (VStr v).
Proof.
  intros Hchart Hnd Hin H. split.
  - exact (base_mode_chart_inline kvs ([], []) (inline, css) Hchart H eq_refl).
  - clear -Hchart Hnd Hin H. revert H. generalize (@nil (string * value), @nil (string * value)).
    induction kvs as [|[k w] kvs IH]; intros acc H; [destruct Hin|].
    cbn [base_mode] in H. cbn [map fst] in Hnd. apply NoDup_cons in Hnd as [Hfresh Hnd].
    destruct (base_step colorsData baseColor acc (k, w)) as [[inline1 css1]| |] eqn:E;
      cbn [obind] in H; try discriminate H.
    destruct Hin as [Heq | Hin].
    + inversion Heq; subst k w.
      destruct (base_mode_other kvs _ _ H) as [_ G].
      { intros Hk. apply Hfresh. by apply list_elem_of_In. }
      cbn [snd] in G. rewrite G. destruct acc as [i0 c0]. unfold base_step in E.
      rewrite Hchart in E. inversion E. apply assoc_set_eq.
    + exact (IH Hnd Hin _ H).
Qed.




End Passes.

(** ** What the colour index asks of the colour table *)

Lemma with_channels_strings (v v' : value) :
  with_channels v = Ok v' -> has_colour_strings v.
Proof.
  intros H. apply with_channels_augmented in H as (rgb & hsl & Hr & Hh & _).
  by exists rgb, hsl.
Qed.

Lemma colorsData_step_well_formed acc color v next :
  colorsData_step acc (color, v) = Ok next -> well_formed_colour v.
Proof.
  unfold colorsData_step, well_formed_colour. intros H. destruct v; auto.
  - cbv in H. discriminate H.
  - destruct (omapM with_channels elems) as [shades| |] eqn:E; cbn [obind] in H;
      try discriminate H.
    apply omapM_Forall2 in E. clear H. induction E; constructor; eauto using with_channels_strings.
  - destruct (with_channels (VObj props)) as [v'| |] eqn:E; cbn [obind] in H;
      try discriminate H.
    exact (with_channels_strings _ _ E).
Qed.

Lemma with_channels_total (v : value) :
  has_colour_strings v -> exists v', with_channels v = Ok v'.
Proof.
  intros (rgb & hsl & Hr & Hh). unfold with_channels.
  rewrite Hr, Hh. cbn. by eexists.
Qed.

Lemma shades_total (shades : list value) :
  Forall has_colour_strings shades ->
  exists shades', omapM with_channels shades = Ok shades'.
Proof.
  induction 1 as [|v shades Hv _ [shades' IH]]; [by eexists|].
  destruct (with_channels_total v Hv) as [v' Hv'].
  cbn [omapM]. rewrite Hv', IH. by eexists.
Qed.

Lemma colorsData_step_total acc color v :
  well_formed_colour v -> exists next, colorsData_step acc (color, v) = Ok next.
Proof.
  unfold colorsData_step, well_formed_colour. intros H.
  destruct v; try done; try (by eexists).
  - destruct (shades_total _ H) as [shades ->]. by eexists.
  - destruct (with_channels_total _ H) as [v' ->]. by eexists.
Qed.

(** X19.  The flat colour index is built exactly from a well-formed
    colour table: building it succeeds if and only if no colour is
    [null], every colour that is an object has an [rgb] and an [hsl]
    string, and so has every shade of every family; on any other table
    the loop throws. *)
Theorem colour_index_needs_colour_strings (colors : list (string * value)) :
  (exists cd, build_colorsData colors = Ok cd)
  <-> Forall (fun entry => well_formed_colour (snd entry)) colors.
Proof.
  unfold build_colorsData. generalize (@nil (string * value)).
  induction colors as [|[c0 v0] colors IH]; intros acc; cbn [colorsData_loop].
  - split; [constructor | by eexists].
  - split.
    + intros [cd H].
      destruct (colorsData_step acc (c0, v0)) as [next| |] eqn:E; cbn [obind] in H;
        try discriminate H.
      constructor; [exact (colorsData_step_well_formed _ _ _ _ E)|].
      apply (IH next). by exists cd.
    + intros H. apply Forall_cons in H as [H0 H].
      destruct (colorsData_step_total acc c0 v0 H0) as [next ->]. cbn [obind].
      by apply IH.
Qed.

(** ** The templates *)

Lemma render_readable (colors theme : value) (t : list piece) :
  Forall (fun mode => exists m, JS.get colors mode = Ok m /\ readable m)
         (template_modes t) ->
  exists text, render colors theme t = Ok text.
Proof.
  induction t as [|piece t IH]; intros H; [by eexists|].
  destruct piece as [text|mode k|]; cbn [template_modes] in H; cbn [render].
  - destruct (IH H) as [tail ->]. by eexists.
  - apply Forall_cons in H as [(m & -> & Hm1 & Hm2) H]. cbn [obind].
    destruct (IH H) as [tail ->].
    destruct m; try done; by eexists.
  - destruct (IH H) as [tail ->]. by eexists.
Qed.

Lemma render_unreadable (colors theme : value) (t : list piece) mode rest :
  template_modes t = mode :: rest ->
  JS.get colors mode = Ok VUndef ->
  exists e, render colors theme t = Throw e.
Proof.
  intros Ht Hmode. induction t as [|piece t IH]; [discriminate Ht|].
  destruct piece as [text|mode' k|]; cbn [template_modes] in Ht; cbn [render].
  - destruct (IH Ht) as [e ->]. by eexists.
  - inversion Ht; subst. rewrite Hmode. by eexists.
  - destruct (IH Ht) as [e ->]. by eexists.
Qed.

(** X20.  The stylesheet templates render for every colour set that has
    a light and a dark mode, whatever variables the modes hold: a
    variable that a mode lacks leaves its place empty. *)
Theorem templates_render_with_both_modes (colors theme light dark : value) :
  JS.get colors "light" = Ok light -> readable light ->
  JS.get colors "dark" = Ok dark -> readable dark ->
  (exists text, render colors theme BASE_STYLES_WITH_VARIABLES = Ok text)
  /\ (exists text, render colors theme THEME_STYLES_WITH_VARIABLES = Ok text).
Proof.
  intros Hl Hlr Hd Hdr.
  assert (forall t, forallb (fun m => (m =? "light")%string || (m =? "dark")%string)
                      (template_modes t) = true ->
                    exists text, render colors theme t = Ok text) as Hall.
  { intros t Ht. apply render_readable. apply Forall_forall. intros m Hm.
    rewrite forallb_forall in Ht. apply list_elem_of_In in Hm.
    specialize (Ht m Hm). apply orb_true_iff in Ht as [E | E];
      apply String.eqb_eq in E; subst m; eauto. }
  split; apply Hall; vm_compute; reflexivity.
Qed.

(** X21.  A colour set without a light mode cannot be rendered: both
    templates throw a [TypeError], and neither gives a stylesheet with
    empty variables. *)
Theorem templates_throw_without_light_mode (colors theme : value) :
  JS.get colors "light" = Ok VUndef ->
  (exists e, render colors theme BASE_STYLES_WITH_VARIABLES = Throw e)
  /\ (exists e, render colors theme THEME_STYLES_WITH_VARIABLES = Throw e).
Proof.
  intros Hl. split; eapply render_unreadable; try exact Hl; vm_compute; reflexivity.
Qed.

(** ** A family that the colour table lacks *)

Lemma lookup_color_missing_family (cd : list (string * value)) (family scale : string) :
  without_char "-"%char family -> without_char "-"%char scale ->
  scale <> EmptyString ->
  JS.assoc family cd = None ->
  lookup_color cd (family +:+ "-" +:+ scale)
  = Throw (TypeError "Cannot read properties of undefined (reading 'find')").
Proof.
  intros Hf Hs Hne Hnone. unfold lookup_color.
  change (family +:+ "-" +:+ scale) with (family +:+ String "-"%char scale).
  rewrite (split_on_first _ _ _ Hf), (split_on_without _ _ Hs).
  destruct scale as [|c r]; [done|]. cbn [List.hd]. by rewrite Hnone.
Qed.

(** X22.  A token that resolves to [family-scale] for a family the
    colour table lacks makes both passes throw a [TypeError] on a
    variable that is not a chart variable: the shade is looked up in
    [undefined]. *)
Theorem missing_family_with_scale_throws (cd css : list (string * value))
  (acc : list (string * value) * list (string * value))
  (baseColor key token family scale : string) :
  resolve_token baseColor token = family +:+ "-" +:+ scale ->
  without_char "-"%char family -> without_char "-"%char scale ->
  scale <> EmptyString ->
  JS.assoc family cd = None ->
  Str.starts_with "chart-" key = false ->
  (exists e, theme_step cd baseColor css (key, VStr token) = Throw e)
  /\ (exists e, base_step cd baseColor acc (key, VStr token) = Throw e).
Proof.
  intros Hres Hf Hs Hne Hnone Hchart.
  pose proof (lookup_color_missing_family cd family scale Hf Hs Hne Hnone) as Hthrow.
  split.
  - unfold theme_step. rewrite Hres, Hthrow. by eexists.
  - destruct acc as [inline css0]. unfold base_step.
    rewrite Hchart, Hres, Hthrow. by eexists.
Qed.

(** ** The further statements on the sample inputs *)

Lemma block_module_lists_blocks_only_witness :
  block_entry Sample.cwd Sample.button = Ok None
  /\ block_module Sample.cwd ([Sample.hero] ++ Sample.button :: [])%list
     = block_module Sample.cwd ([Sample.hero] ++ [])%list.
Proof.
  apply (block_module_lists_blocks_only Sample.cwd Sample.button (VStr "registry:ui")
           [Sample.hero] []).
  - reflexivity.
  - reflexivity.
Defined.

Lemma absent_dependencies_render_undefined_witness :
  Str.contains "    registryDependencies: undefined," Fixture.hero_entry = true.
Proof.
  apply (absent_dependencies_render_undefined Sample.cwd Sample.hero Fixture.hero_entry).
  - reflexivity.
  - vm_compute. reflexivity.
Defined.

Lemma empty_files_conventional_path_witness :
  componentPath Sample.hero []
  = Ok ("@/components/content/inspira/" +:+ "block" +:+ "/" +:+ "hero").
Proof.
  apply (empty_files_conventional_path Sample.hero "block" "hero").
  - reflexivity.
  - reflexivity.
  - vm_compute. reflexivity.
Defined.

Lemma failed_rendering_writes_nothing_witness :
  let r := run Sample.cwd [Sample.button; Fixture.untyped] Sample.no_content
             Sample.any_registry Sample.strict_entry Sample.colors
             Sample.colorMapping Sample.baseColors Sample.disk in
  fst r = 1%Z /\ files (snd r) = files Sample.disk
  /\ stderr (snd r)
     = (stderr Sample.disk
          ++ [TypeError "Cannot read properties of undefined (reading 'split')"])%list
  /\ stdout (snd r) = stdout Sample.disk.
Proof.
  apply (failed_rendering_writes_nothing Sample.cwd [Sample.button; Fixture.untyped]
           Sample.no_content Sample.any_registry Sample.strict_entry Sample.colors
           Sample.colorMapping Sample.baseColors Sample.disk []
           [Sample.button; Fixture.untyped]
           (TypeError "Cannot read properties of undefined (reading 'split')")).
  - reflexivity.
  - reflexivity.
  - left. vm_compute. reflexivity.
Defined.

Lemma directories_precede_validation_witness :
  let w' := snd (run Sample.cwd [Sample.button; Sample.nameless] Sample.no_content
                   Sample.named_registry Sample.strict_entry Sample.colors
                   Sample.colorMapping Sample.baseColors Sample.disk) in
  exists_in w' (NodePath.join_paths [Sample.cwd; "__registry__"])
  /\ exists_in w' (REGISTRY_PATH Sample.cwd).
Proof.
  apply (directories_precede_validation Sample.cwd [Sample.button; Sample.nameless]
           Sample.no_content Sample.named_registry Sample.strict_entry Sample.colors
           Sample.colorMapping Sample.baseColors Sample.disk []
           (ZodError "name: Required")).
  - reflexivity.
  - vm_compute. reflexivity.
Defined.

Lemma colors_directory_is_rebuilt_witness :
  Str.ends_with_crlf Fixture.colors_index.
Proof.
  apply (colors_directory_is_rebuilt Sample.cwd Sample.colors Sample.colorMapping
           Sample.baseColors Sample.disk "/app/public/r/colors/index.json"
           Fixture.colors_index).
  - vm_compute. reflexivity.
  - vm_compute. reflexivity.
Defined.

Lemma styles_are_named_after_items_witness :
  files Sample.disk !! "/app/public/r/styles/button.json" = Some Fixture.button_document
  \/ style_document_of Sample.cwd [Sample.button; Sample.card]
       "/app/public/r/styles/button.json".
Proof.
  apply (styles_are_named_after_items Sample.cwd Sample.strict_entry
           [Sample.button; Sample.card] Sample.disk
           "/app/public/r/styles/button.json" Fixture.button_document).
  vm_compute. reflexivity.
Defined.

Lemma nullish_file_aborts_the_item_witness :
  exists e w',
    style_files Sample.cwd (VArr [Sample.file "ui/card.vue" "registry:ui"; VNull])
      Sample.disk = (Throw e, w')
    /\ files w' = files Sample.disk.
Proof.
  apply (nullish_file_aborts_the_item Sample.cwd
           [Sample.file "ui/card.vue" "registry:ui"; VNull] VNull Sample.disk).
  - simpl. auto.
  - right. reflexivity.
Defined.

Lemma files_array_keeps_its_length_witness :
  exists slots,
    VArr [Sample.card_entry; VUndef] = VArr slots
    /\ length slots
       = length [Sample.file "ui/card.vue" "registry:ui";
                 Sample.file "ui/missing.vue" "registry:ui"].
Proof.
  apply (files_array_keeps_its_length Sample.cwd
           [Sample.file "ui/card.vue" "registry:ui";
            Sample.file "ui/missing.vue" "registry:ui"]
           (VArr [Sample.card_entry; VUndef]) Sample.disk
           (mkWorld (files Sample.disk) (dirs Sample.disk) (stdout Sample.disk)
              (stderr Sample.disk
                 ++ [FsError "ENOENT" "/app/components/content/inspira/ui/missing.vue"]))).
  vm_compute. reflexivity.
Defined.

Lemma find_scale_selects_by_scale_witness :
  (Fixture.darkest = VUndef
   /\ Forall (fun x => JS.get x "scale" <> Ok (VNum 950))
        [Sample.shade 50 "rgb(248,250,252)" "hsl(210,40%,98%)"; Fixture.darkest])
  \/ exists before after,
       [Sample.shade 50 "rgb(248,250,252)" "hsl(210,40%,98%)"; Fixture.darkest]
       = (before ++ Fixture.darkest :: after)%list
       /\ JS.get Fixture.darkest "scale" = Ok (VNum 950)
       /\ Forall (fun x => JS.get x "scale" <> Ok (VNum 950)) before.
Proof.
  apply (find_scale_selects_by_scale (Some 950%Z)
           [Sample.shade 50 "rgb(248,250,252)" "hsl(210,40%,98%)"; Fixture.darkest]
           Fixture.darkest).
  reflexivity.
Defined.

Lemma resolve_token_substitutes_family_witness :
  resolve_token "slate" "950" = "950"
  /\ resolve_token "slate" ("{{base}}-" +:+ "950") = "slate" +:+ "-" +:+ "950".
Proof.
  apply (resolve_token_substitutes_family "slate" "950").
  vm_compute. reflexivity.
Defined.

Lemma chart_variables_are_copied_witness :
  JS.assoc "chart-1" (fst Fixture.light_base) = None
  /\ JS.assoc "chart-1" (snd Fixture.light_base) = Some (VStr "12 76% 61%").
Proof.
  apply (chart_variables_are_copied Sample.colorsData "slate" "chart-1" Fixture.light
           (fst Fixture.light_base) (snd Fixture.light_base) "12 76% 61%").
  - reflexivity.
  - apply (bool_decide_unpack (NoDup (map fst Fixture.light))). vm_compute. exact I.
  - simpl. auto.
  - vm_compute. reflexivity.
Defined.


Lemma templates_render_with_both_modes_witness :
  (exists text,
     render Fixture.empty_modes (VStr "zinc") BASE_STYLES_WITH_VARIABLES = Ok text)
  /\ (exists text,
        render Fixture.empty_modes (VStr "zinc") THEME_STYLES_WITH_VARIABLES = Ok text).
Proof.
  apply (templates_render_with_both_modes Fixture.empty_modes (VStr "zinc")
           (VObj []) (VObj [])).
  - reflexivity.
  - split; discriminate.
  - reflexivity.
  - split; discriminate.
Defined.

Lemma templates_throw_without_light_mode_witness :
  (exists e, render Fixture.dark_only (VStr "zinc") BASE_STYLES_WITH_VARIABLES = Throw e)
  /\ (exists e,
        render Fixture.dark_only (VStr "zinc") THEME_STYLES_WITH_VARIABLES = Throw e).
Proof.
  apply (templates_throw_without_light_mode Fixture.dark_only (VStr "zinc")).
  reflexivity.
Defined.

Lemma missing_family_with_scale_throws_witness :
  (exists e,
     theme_step Sample.colorsData "rose" [] ("foreground", VStr "{{base}}-950") = Throw e)
  /\ (exists e,
        base_step Sample.colorsData "rose" ([], []) ("foreground", VStr "{{base}}-950")
        = Throw e).
Proof.
  apply (missing_family_with_scale_throws Sample.colorsData [] ([], []) "rose"
           "foreground" "{{base}}-950" "rose" "950").
  - vm_compute. reflexivity.
  - vm_compute. reflexivity.
  - vm_compute. reflexivity.
  - discriminate.
  - reflexivity.
  - reflexivity.
Defined.
